(** * Verification of the HPA external-metrics processor
    (pkg/util/kubernetes/hpa/hpa.go)

    The Go package is embedded shallowly: the three public operations
    [ComputeDeleteExternalMetrics], [UpdateExternalMetrics] and
    [ProcessHPAs] become Rocq functions in a small state monad whose state
    records every observable effect of the Go code (clock reads, provider
    queries, log lines).  Go's [int64] is modelled by [Z] with the
    wrap-around written out, Go maps by [gmap]/[gset]. *)

From Stdlib Require Import ZArith.
From stdpp Require Import gmap strings list sorting.

Local Open Scope Z_scope.

(** ** Machine integers *)

Module Int64.
Definition min_int : Z := - 2 ^ 63.
Definition max_int : Z := 2 ^ 63 - 1.
Definition modulus : Z := 2 ^ 64.

Definition in_range (z : Z) : Prop := min_int <= z <= max_int.

(** Two's-complement reduction of a mathematical integer to [int64]. *)
Definition wrap (z : Z) : Z := (z - min_int) mod modulus + min_int.

Definition sub (a b : Z) : Z := wrap (a - b).
Definition mul (a b : Z) : Z := wrap (a * b).
End Int64.

(** ** Go's [time.Duration] (an [int64] count of nanoseconds) *)

Module time.
Definition Duration := Z.
Definition Second : Duration := 1000000000.

(** [int64(d.Seconds())]: [Seconds] returns
    [float64(d / Second) + float64(d % Second) / 1e9] and the conversion
    back to [int64] truncates toward zero.  For a whole number of seconds,
    which is what [NewProcessor] builds from its setting, the detour
    through [float64] is exact and the result is the quotient below.  (For
    a duration of many weeks whose remainder is within [float64] rounding
    distance of a full second the sum rounds to the next second; that
    rounding is not modelled.) *)
Definition Seconds_int64 (d : Duration) : Z := Z.quot d Second.
End time.

(** ** Data model *)

Definition error := string.

Module custommetrics.
(** Modelled from the spec: the record types of package [custommetrics]
    (their declarations are outside this file); the fields are the ones
    hpa.go reads and writes, with the types of spec section 3. *)
Record ObjectReference := mkObjectReference {
  Name : string;
  Namespace : string;
  UID : string
}.

Record ExternalMetricValue := mkExternalMetricValue {
  MetricName : string;
  Labels : gmap string string;
  Timestamp : Z;
  HPA : ObjectReference;
  Value : Z;
  Valid : bool
}.

Definition set_Valid (b : bool) (em : ExternalMetricValue) :=
  mkExternalMetricValue (MetricName em) (Labels em) (Timestamp em) (HPA em) (Value em) b.
Definition set_Timestamp (t : Z) (em : ExternalMetricValue) :=
  mkExternalMetricValue (MetricName em) (Labels em) t (HPA em) (Value em) (Valid em).
Definition set_Value (v : Z) (em : ExternalMetricValue) :=
  mkExternalMetricValue (MetricName em) (Labels em) (Timestamp em) (HPA em) v (Valid em).
End custommetrics.

Module autoscalingv2.
(** Modelled from the spec: the consumed shape of an autoscaling policy
    object (spec section 6): [name], [namespace], [uid] and an ordered
    [spec.metrics], each entry tagged with a source type; only entries
    tagged "external" carry a metric name and a label selector.  Pointers
    inside the object ([External], [MetricSelector]) are taken to be
    non-nil, as that shape has it. *)
Inductive MetricSourceType :=
| ObjectMetricSourceType
| PodsMetricSourceType
| ResourceMetricSourceType
| ExternalMetricSourceType.

Record ExternalMetricSource := mkExternalMetricSource {
  MetricName : string;
  MatchLabels : gmap string string   (* External.MetricSelector.MatchLabels *)
}.

Inductive MetricSpec :=
| ObjectMetric
| PodsMetric
| ResourceMetric
| ExternalMetric (External : ExternalMetricSource).

Definition Type_ (m : MetricSpec) : MetricSourceType :=
  match m with
  | ObjectMetric => ObjectMetricSourceType
  | PodsMetric => PodsMetricSourceType
  | ResourceMetric => ResourceMetricSourceType
  | ExternalMetric _ => ExternalMetricSourceType
  end.

Record HorizontalPodAutoscaler := mkHPA {
  Name : string;
  Namespace : string;
  UID : string;
  Metrics : list MetricSpec           (* Spec.Metrics *)
}.
End autoscalingv2.

Import custommetrics.

(** ** Observable effects *)

Inductive LogLevel := LevelDebug | LevelError.

Inductive LogArg :=
| ArgString (s : string)
| ArgError (e : error)
| ArgType (t : autoscalingv2.MetricSourceType)
| ArgMetric (em : ExternalMetricValue).

Record LogLine := mkLogLine {
  level : LogLevel;
  format : string;
  args : list LogArg
}.

(** What a run has done to the outside so far: how often the clock was
    read, which provider queries were issued, which lines were logged. *)
Record World := mkWorld {
  ticks : nat;
  queries : list (string * gmap string string);
  logs : list LogLine
}.

Definition M (A : Type) : Type := World → A * World.

Global Instance M_ret : MRet M := λ A (a : A) w, (a, w).
Global Instance M_bind : MBind M := λ A B (f : A → M B) (m : M A) w,
  let (a, w') := m w in f a w'.

Definition Debugf (fmt : string) (a : list LogArg) : M unit := λ w,
  (tt, mkWorld (ticks w) (queries w) (logs w ++ [mkLogLine LevelDebug fmt a])).
Definition Errorf (fmt : string) (a : list LogArg) : M unit := λ w,
  (tt, mkWorld (ticks w) (queries w) (logs w ++ [mkLogLine LevelError fmt a])).

(** ** The processor *)

(** The field [datadogClient] is used by [queryDatadogExternal] only, which
    is a parameter below. *)
Record Processor := mkProcessor {
  externalMaxAge : time.Duration
}.

(** [NewProcessor], with the value of the setting
    [external_metrics_provider.max_age] passed in. *)
Definition NewProcessor (external_max_age : Z) : Processor :=
  mkProcessor (Int64.mul external_max_age time.Second).

(** The local variables of [ComputeDeleteExternalMetrics]; [gc_list] and
    [gc_emList] are the two argument slices ([list] and [emList] in the
    source), the set [uids] is a Go [map[string]struct{}]. *)
Record GCFrame := mkGCFrame {
  gc_list : list autoscalingv2.HorizontalPodAutoscaler;
  gc_emList : list ExternalMetricValue;
  gc_uids : gset string;
  gc_deleted : list ExternalMetricValue
}.

Definition ComputeDeleteExternalMetrics_frame
    (hpaList : list autoscalingv2.HorizontalPodAutoscaler)
    (emList : list ExternalMetricValue) : M GCFrame :=
  let uids :=
    foldl (λ (uids : gset string) hpa, {[ autoscalingv2.UID hpa ]} ∪ uids) ∅ hpaList in
  let deleted :=
    foldl (λ deleted em,
             if decide (UID (HPA em) ∈ uids) then deleted else deleted ++ [em])
          [] emList in
  mret (mkGCFrame hpaList emList uids deleted).

Definition ComputeDeleteExternalMetrics
    (hpaList : list autoscalingv2.HorizontalPodAutoscaler)
    (emList : list ExternalMetricValue) : M (list ExternalMetricValue) :=
  fr ← ComputeDeleteExternalMetrics_frame hpaList emList;
  mret (gc_deleted fr).

(** The local variables of [UpdateExternalMetrics].  [up_emList] is the
    backing array of the argument slice: [for _, em := range emList] reads
    element [i] from it at iteration [i] and binds a copy to [em]. *)
Record UpdateFrame := mkUpdateFrame {
  up_emList : list ExternalMetricValue;
  up_err : option error;
  up_updated : list ExternalMetricValue
}.

Section WithEnvironment.
(** [clock k] is what the [k]-th call of [metav1.Now().Unix()] returns
    (before its reduction to [int64]). *)
Variable clock : nat → Z.

(** [queryDatadogExternal] is not part of this file; it is taken as a
    parameter: [queryDatadogExternal k name labels] is the pair
    [(val, err)] that its [k]-th call returns when asked for [name] and
    [labels]. *)
Variable queryDatadogExternal : nat → string → gmap string string → Z * option error.

Definition Unix (k : nat) : Z := Int64.wrap (clock k).

Definition Now_Unix : M Z := λ w,
  (Unix (ticks w), mkWorld (S (ticks w)) (queries w) (logs w)).

Definition call_queryDatadogExternal (metricName : string)
    (labels : gmap string string) : M (Z * option error) := λ w,
  (queryDatadogExternal (length (queries w)) metricName labels,
   mkWorld (ticks w) (queries w ++ [(metricName, labels)]) (logs w)).

Definition validateExternalMetric (p : Processor) (metricName : string)
    (labels : gmap string string) : M (Z * bool * option error) :=
  '(val, err) ← call_queryDatadogExternal metricName labels;
  match err with
  | Some e => mret (val, false, Some e)
  | None => mret (val, true, None)
  end.

Definition log_fetch_failure (metricName : string) (err : option error) : M unit :=
  match err with
  | Some e =>
      Debugf "Could not fetch the external metric %s from Datadog, metric is no longer valid: %s"
             [ArgString metricName; ArgError e]
  | None => mret tt
  end.

(** One iteration of the loop of [UpdateExternalMetrics]. *)
Definition UpdateExternalMetrics_body (p : Processor) (maxAge : Z) (i : nat)
    (fr : UpdateFrame) : M UpdateFrame :=
  match up_emList fr !! i with
  | None => mret fr
  | Some em =>
      now ← Now_Unix;
      if bool_decide (Int64.sub now (Timestamp em) ≤ maxAge) && Valid em then
        mret fr
      else
        let em := set_Valid false em in
        now ← Now_Unix;
        let em := set_Timestamp now em in
        '(value, valid, err) ← validateExternalMetric p (MetricName em) (Labels em);
        let em := set_Valid valid (set_Value value em) in
        _ ← log_fetch_failure (MetricName em) err;
        _ ← Debugf "Updated the external metric %#v" [ArgMetric em];
        mret (mkUpdateFrame (up_emList fr) err (up_updated fr ++ [em]))
  end.

(** [for i := lo; i < lo + n; i++ { body }] *)
Fixpoint for_range {S : Type} (body : nat → S → M S) (lo n : nat) (s : S) : M S :=
  match n with
  | O => mret s
  | Datatypes.S n' => s' ← body lo s; for_range body (Datatypes.S lo) n' s'
  end.

Definition UpdateExternalMetrics_frame (p : Processor)
    (emList : list ExternalMetricValue) : M UpdateFrame :=
  let maxAge := time.Seconds_int64 (externalMaxAge p) in
  for_range (UpdateExternalMetrics_body p maxAge) 0 (length emList)
            (mkUpdateFrame emList None []).

Definition UpdateExternalMetrics (p : Processor)
    (emList : list ExternalMetricValue) : M (list ExternalMetricValue) :=
  fr ← UpdateExternalMetrics_frame p emList;
  mret (up_updated fr).

(** One iteration of the loop of [ProcessHPAs]; the state is the pair of
    the locals [externalMetrics] and [err]. *)
Definition ProcessHPAs_body (p : Processor) (hpa : autoscalingv2.HorizontalPodAutoscaler)
    (st : list ExternalMetricValue * option error)
    (metricSpec : autoscalingv2.MetricSpec)
    : M (list ExternalMetricValue * option error) :=
  let '(externalMetrics, err0) := st in
  match metricSpec with
  | autoscalingv2.ExternalMetric External =>
      now ← Now_Unix;
      let m := mkExternalMetricValue
                 (autoscalingv2.MetricName External)
                 (autoscalingv2.MatchLabels External)
                 now
                 (mkObjectReference (autoscalingv2.Name hpa)
                                    (autoscalingv2.Namespace hpa)
                                    (autoscalingv2.UID hpa))
                 0 false in
      '(value, valid, err) ← validateExternalMetric p (MetricName m) (Labels m);
      let m := set_Valid valid (set_Value value m) in
      _ ← log_fetch_failure (MetricName m) err;
      mret (externalMetrics ++ [m], err)
  | _ =>
      _ ← Debugf "Unsupported metric type %s" [ArgType (autoscalingv2.Type_ metricSpec)];
      mret (externalMetrics, err0)
  end.

Fixpoint for_each {A S : Type} (body : S → A → M S) (l : list A) (s : S) : M S :=
  match l with
  | [] => mret s
  | x :: l' => s' ← body s x; for_each body l' s'
  end.

Definition ProcessHPAs (p : Processor) (hpa : autoscalingv2.HorizontalPodAutoscaler)
    : M (list ExternalMetricValue) :=
  if bool_decide (length (autoscalingv2.Metrics hpa) = 0%nat) then
    _ ← Errorf "Error processing %s/%s's external metrics, empty list"
               [ArgString (autoscalingv2.Namespace hpa); ArgString (autoscalingv2.Name hpa)];
    mret []
  else
    st ← for_each (ProcessHPAs_body p hpa) (autoscalingv2.Metrics hpa) ([], None);
    mret st.1.

End WithEnvironment.

(** ** The loop of [UpdateExternalMetrics], iteration by iteration *)

Section Refresh.
Variable clock : nat → Z.
Variable queryDatadogExternal : nat → string → gmap string string → Z * option error.
Variable p : Processor.

(** [maxAge := int64(p.externalMaxAge.Seconds())] *)
Definition maxAge : Z := time.Seconds_int64 (externalMaxAge p).

(** The frame and the world when the loop has run its first [n]
    iterations; for [n = length emList] this is the state in which
    [UpdateExternalMetrics] returns. *)
Definition UpdateExternalMetrics_upto (emList : list ExternalMetricValue) (n : nat)
    : M UpdateFrame :=
  for_range (UpdateExternalMetrics_body clock queryDatadogExternal p maxAge) 0 n
            (mkUpdateFrame emList None []).

(** The clock reading against which the record at index [i] is judged:
    the value of [metav1.Now().Unix()] on line 64 in iteration [i]. *)
Definition now_at (emList : list ExternalMetricValue) (i : nat) (w : World) : Z :=
  Unix clock (ticks (UpdateExternalMetrics_upto emList i w).2).

(** The freshness test as the spec words it: valid, and not older than
    [maxAge] (the difference is taken in [int64], as the timestamps are). *)
Definition fresh (now : Z) (em : ExternalMetricValue) : Prop :=
  Valid em = true ∧ Int64.sub now (Timestamp em) ≤ maxAge.

(** Iteration [i] left the record alone: it read the clock once and did
    nothing else; no provider query, no log line, no change to any local
    variable, to the argument slice or to the result under construction. *)
Definition skipped (emList : list ExternalMetricValue) (i : nat) (w : World) : Prop :=
  let s := UpdateExternalMetrics_upto emList i w in
  UpdateExternalMetrics_upto emList (S i) w =
    (s.1, mkWorld (S (ticks s.2)) (queries s.2) (logs s.2)).

(** Iteration [i] revalidated the record: it asked the provider about the
    record's metric and labels and appended [em'] to [updated], where [em']
    is the copy of the record carrying the answer and the clock reading
    taken on line 68. *)
Definition revalidated (emList : list ExternalMetricValue) (i : nat) (w : World)
    (em' : ExternalMetricValue) : Prop :=
  ∃ em, emList !! i = Some em ∧
    let s := UpdateExternalMetrics_upto emList i w in
    let s' := UpdateExternalMetrics_upto emList (S i) w in
    let r := queryDatadogExternal (length (queries s.2)) (MetricName em) (Labels em) in
    em' = mkExternalMetricValue (MetricName em) (Labels em)
            (Unix clock (S (ticks s.2))) (HPA em) r.1 (bool_decide (r.2 = None)) ∧
    ticks s'.2 = S (S (ticks s.2)) ∧
    queries s'.2 = queries s.2 ++ [(MetricName em, Labels em)] ∧
    up_err s'.1 = r.2 ∧
    up_updated s'.1 = up_updated s.1 ++ [em'].

End Refresh.

(** ** Vocabulary for the statements about [ProcessHPAs] and the GC *)

(** The entries of a metric-spec list that are tagged "external", in spec
    order. *)
Definition external_sources (metrics : list autoscalingv2.MetricSpec)
    : list autoscalingv2.ExternalMetricSource :=
  omap (λ metricSpec,
          match metricSpec with
          | autoscalingv2.ExternalMetric External => Some External
          | _ => None
          end) metrics.

(** The owner reference that [ProcessHPAs] writes into each record. *)
Definition owner_of (hpa : autoscalingv2.HorizontalPodAutoscaler) : ObjectReference :=
  mkObjectReference (autoscalingv2.Name hpa) (autoscalingv2.Namespace hpa)
                    (autoscalingv2.UID hpa).

(** The uids of the live policy objects. *)
Definition live_uids (hpaList : list autoscalingv2.HorizontalPodAutoscaler) : list string :=
  autoscalingv2.UID <$> hpaList.

(** What identifies a record across a revalidation: the fields that
    [UpdateExternalMetrics] never assigns. *)
Definition record_key (em : ExternalMetricValue)
    : string * gmap string string * ObjectReference :=
  (MetricName em, Labels em, HPA em).

(** The record [ProcessHPAs] builds for an "external" entry when the clock
    has been read [t] times and the provider queried [q] times before. *)
Definition extracted_record (clock : nat → Z)
    (queryDatadogExternal : nat → string → gmap string string → Z * option error)
    (hpa : autoscalingv2.HorizontalPodAutoscaler) (t q : nat)
    (src : autoscalingv2.ExternalMetricSource) : ExternalMetricValue :=
  let r := queryDatadogExternal q (autoscalingv2.MetricName src)
                                (autoscalingv2.MatchLabels src) in
  mkExternalMetricValue (autoscalingv2.MetricName src) (autoscalingv2.MatchLabels src)
                        (Unix clock t) (owner_of hpa) r.1 (bool_decide (r.2 = None)).

(** ** Concrete data for the examples *)

Module Examples.
Local Open Scope string_scope.

Definition w0 : World := mkWorld 0 [] [].

(** A clock that stands at second 100, a provider that answers 7, and one
    that is unreachable. *)
Definition clock100 (k : nat) : Z := 100.
Definition provider_up (k : nat) (metricName : string) (labels : gmap string string)
    : Z * option error := (7, None).
Definition provider_down (k : nat) (metricName : string) (labels : gmap string string)
    : Z * option error := (0, Some "provider unreachable").

Definition owner (uid : string) : ObjectReference :=
  mkObjectReference "web" "default" uid.
Definition metric (uid : string) (timestamp : Z) (valid : bool) : ExternalMetricValue :=
  mkExternalMetricValue "requests" {[ "app" := "web" ]} timestamp (owner uid) 5 valid.
Definition policy (uid : string) (metrics : list autoscalingv2.MetricSpec)
    : autoscalingv2.HorizontalPodAutoscaler :=
  autoscalingv2.mkHPA "web" "default" uid metrics.
Definition external_requests : autoscalingv2.MetricSpec :=
  autoscalingv2.ExternalMetric
    (autoscalingv2.mkExternalMetricSource "requests" {[ "app" := "web" ]}).

End Examples.

(** ** Lemmas on machine integers *)

(** Unfolds the operations of the monad [M]. *)
Ltac run_M := unfold mbind, M_bind, mret, M_ret.


Lemma Int64_wrap_in_range (z : Z) : Int64.in_range (Int64.wrap z).
Proof.
  unfold Int64.in_range, Int64.wrap, Int64.min_int, Int64.max_int, Int64.modulus.
  pose proof (Z.mod_pos_bound (z - - 2 ^ 63) (2 ^ 64) ltac:(lia)). lia.
Qed.

Lemma Int64_wrap_id (z : Z) : Int64.in_range z → Int64.wrap z = z.
Proof.
  unfold Int64.in_range, Int64.wrap, Int64.min_int, Int64.max_int, Int64.modulus.
  intros H. rewrite Z.mod_small; lia.
Qed.



(** A processor built from a setting of [n] seconds compares ages with [n],
    as long as [n] seconds fit a [time.Duration]. *)
Lemma maxAge_NewProcessor (n : Z) :
  Int64.in_range (n * time.Second) → maxAge (NewProcessor n) = n.
Proof.
  intros Hr. unfold maxAge, NewProcessor, Int64.mul. cbn [externalMaxAge].
  rewrite (Int64_wrap_id _ Hr). unfold time.Seconds_int64, time.Second.
  apply Z.quot_mul. lia.
Qed.

(** ** Lemmas on the loop *)

Section RefreshFacts.
Variable clock : nat → Z.
Variable queryDatadogExternal : nat → string → gmap string string → Z * option error.
Variable p : Processor.

Local Abbreviation body := (UpdateExternalMetrics_body clock queryDatadogExternal p (maxAge p)).
Local Abbreviation upto := (UpdateExternalMetrics_upto clock queryDatadogExternal p).

Lemma for_range_snoc {S : Type} (f : nat → S → M S) (n lo : nat) (s : S) (w : World) :
  for_range f lo (Datatypes.S n) s w =
    let (s', w') := for_range f lo n s w in f (lo + n)%nat s' w'.
Proof.
  revert lo s w. induction n as [| n IH]; intros lo s w.
  - cbn. run_M. rewrite Nat.add_0_r.
    destruct (f lo s w); reflexivity.
  - change (for_range f lo (Datatypes.S (Datatypes.S n)) s w)
      with (let (s', w') := f lo s w in for_range f (Datatypes.S lo) (Datatypes.S n) s' w').
    change (for_range f lo (Datatypes.S n) s w)
      with (let (s', w') := f lo s w in for_range f (Datatypes.S lo) n s' w').
    destruct (f lo s w) as [s1 w1]. rewrite IH.
    replace (Datatypes.S lo + n)%nat with (lo + Datatypes.S n)%nat by lia. reflexivity.
Qed.

Lemma upto_0 (emList : list ExternalMetricValue) (w : World) :
  upto emList 0 w = (mkUpdateFrame emList None [], w).
Proof. reflexivity. Qed.

Lemma upto_S (emList : list ExternalMetricValue) (n : nat) (w : World) :
  upto emList (S n) w = let (fr, w1) := upto emList n w in body n fr w1.
Proof. unfold UpdateExternalMetrics_upto. rewrite for_range_snoc. reflexivity. Qed.

Lemma upto_length (emList : list ExternalMetricValue) (w : World) :
  UpdateExternalMetrics_frame clock queryDatadogExternal p emList w =
    upto emList (length emList) w.
Proof. reflexivity. Qed.

(** What one iteration does to a record, by cases on the freshness test. *)
Lemma body_fresh (i : nat) (fr : UpdateFrame) (em : ExternalMetricValue) (w : World) :
  up_emList fr !! i = Some em →
  fresh p (Unix clock (ticks w)) em →
  body i fr w = (fr, mkWorld (S (ticks w)) (queries w) (logs w)).
Proof.
  intros Hi [Hv Hage]. unfold UpdateExternalMetrics_body. rewrite Hi.
  unfold mbind, M_bind, mret, M_ret, Now_Unix. cbn.
  rewrite bool_decide_eq_true_2 by exact Hage. rewrite Hv. reflexivity.
Qed.

Lemma body_stale (i : nat) (fr : UpdateFrame) (em : ExternalMetricValue) (w : World) :
  up_emList fr !! i = Some em →
  ¬ fresh p (Unix clock (ticks w)) em →
  let r := queryDatadogExternal (length (queries w)) (MetricName em) (Labels em) in
  let em' := mkExternalMetricValue (MetricName em) (Labels em)
               (Unix clock (S (ticks w))) (HPA em) r.1 (bool_decide (r.2 = None)) in
  ∃ new_logs,
    body i fr w =
      (mkUpdateFrame (up_emList fr) r.2 (up_updated fr ++ [em']),
       mkWorld (S (S (ticks w))) (queries w ++ [(MetricName em, Labels em)])
               (logs w ++ new_logs)) ∧
    Forall (λ l, level l = LevelDebug) new_logs.
Proof.
  intros Hi Hnf. unfold UpdateExternalMetrics_body. rewrite Hi.
  unfold mbind, M_bind, mret, M_ret, Now_Unix. cbn.
  assert (bool_decide (Int64.sub (Unix clock (ticks w)) (Timestamp em) ≤ maxAge p)
            && Valid em = false) as ->.
  { apply andb_false_iff. destruct (Valid em) eqn:Hv; [left | right; reflexivity].
    apply bool_decide_eq_false_2. intros Hle. apply Hnf. split; assumption. }
  unfold validateExternalMetric, call_queryDatadogExternal, mbind, M_bind, mret, M_ret. cbn.
  destruct (queryDatadogExternal (length (queries w)) (MetricName em) (Labels em))
    as [val [e |]]; cbn.
  - eexists. split.
    + unfold set_Valid, set_Value, set_Timestamp. cbn. rewrite <- app_assoc. reflexivity.
    + repeat constructor.
  - eexists. split.
    + unfold set_Valid, set_Value, set_Timestamp. cbn. reflexivity.
    + repeat constructor.
Qed.

Lemma body_emList (i : nat) (fr : UpdateFrame) (w : World) :
  up_emList (body i fr w).1 = up_emList fr.
Proof.
  destruct (up_emList fr !! i) as [em |] eqn:Hi.
  - destruct (decide (fresh p (Unix clock (ticks w)) em)) as [Hf | Hf].
    + rewrite (body_fresh _ _ _ _ Hi Hf). reflexivity.
    + destruct (body_stale _ _ _ _ Hi Hf) as (nl & -> & _). reflexivity.
  - unfold UpdateExternalMetrics_body. rewrite Hi. reflexivity.
Qed.

Lemma upto_emList (emList : list ExternalMetricValue) (n : nat) (w : World) :
  up_emList (upto emList n w).1 = emList.
Proof.
  induction n as [| n IH]; [reflexivity |].
  rewrite upto_S. destruct (upto emList n w) as [fr w1] eqn:E.
  rewrite body_emList. exact IH.
Qed.

Lemma upto_step_fresh (emList : list ExternalMetricValue) (i : nat)
    (em : ExternalMetricValue) (w : World) :
  emList !! i = Some em →
  fresh p (now_at clock queryDatadogExternal p emList i w) em →
  skipped clock queryDatadogExternal p emList i w.
Proof.
  intros Hi Hf. unfold skipped, now_at in *. cbn zeta. rewrite upto_S.
  pose proof (upto_emList emList i w) as Hl.
  destruct (upto emList i w) as [fr w1]. cbn in *.
  apply body_fresh with (em := em); [rewrite Hl; exact Hi | exact Hf].
Qed.

Lemma upto_step_stale (emList : list ExternalMetricValue) (i : nat)
    (em : ExternalMetricValue) (w : World) :
  emList !! i = Some em →
  ¬ fresh p (now_at clock queryDatadogExternal p emList i w) em →
  (∃ em', revalidated clock queryDatadogExternal p emList i w em') ∧
  ∃ new_logs,
    logs (upto emList (S i) w).2 = logs (upto emList i w).2 ++ new_logs ∧
    Forall (λ l, level l = LevelDebug) new_logs.
Proof.
  intros Hi Hf. unfold revalidated, now_at in *. cbn zeta. rewrite upto_S.
  pose proof (upto_emList emList i w) as Hl.
  destruct (upto emList i w) as [fr w1]. cbn in *.
  destruct (body_stale i fr em w1) as (nl & Hb & Hnl); [rewrite Hl; exact Hi | exact Hf |].
  cbn zeta in Hb. rewrite Hb. cbn. split.
  - eexists. exists em. split; [exact Hi |]. repeat split; reflexivity.
  - exists nl. split; [reflexivity | exact Hnl].
Qed.

Lemma skipped_not_revalidated (emList : list ExternalMetricValue) (i : nat) (w : World)
    (em' : ExternalMetricValue) :
  skipped clock queryDatadogExternal p emList i w →
  ¬ revalidated clock queryDatadogExternal p emList i w em'.
Proof.
  unfold skipped, revalidated. cbn zeta. intros Hs (em & _ & _ & Ht & _).
  rewrite Hs in Ht. cbn in Ht. lia.
Qed.

Lemma skipped_fresh (emList : list ExternalMetricValue) (i : nat)
    (em : ExternalMetricValue) (w : World) :
  emList !! i = Some em →
  skipped clock queryDatadogExternal p emList i w ↔
  fresh p (now_at clock queryDatadogExternal p emList i w) em.
Proof.
  intros Hi. split.
  - intros Hs.
    destruct (decide (fresh p (now_at clock queryDatadogExternal p emList i w) em))
      as [Hf | Hf]; [exact Hf | exfalso].
    destruct (upto_step_stale emList i em w Hi Hf) as [[em' Hr] _].
    exact (skipped_not_revalidated emList i w em' Hs Hr).
  - apply upto_step_fresh. exact Hi.
Qed.



End RefreshFacts.

(** ** Freshness and revalidation *)



(** C2, as the code has it.  With [maxAge = 0] a record is revalidated (the
    provider is queried for it and its refreshed copy is appended to the
    result) if and only if it is invalid or its [lastUpdated] lies strictly
    before the clock reading, [0 < now - lastUpdated] in [int64].  A valid
    record stamped in the current second passes the test [0 <= 0] and is
    skipped. *)
Theorem C2_zero_max_age_revalidates_older_records
    (clock : nat → Z)
    (queryDatadogExternal : nat → string → gmap string string → Z * option error)
    (p : Processor) (emList : list ExternalMetricValue) (i : nat)
    (em : ExternalMetricValue) (w : World) :
  maxAge p = 0 →
  emList !! i = Some em →
  let now := now_at clock queryDatadogExternal p emList i w in
  (Valid em = false ∨ 0 < Int64.sub now (Timestamp em)) ↔
  ∃ em', revalidated clock queryDatadogExternal p emList i w em'.
Proof.
  intros H0 Hi now.
  pose proof (skipped_fresh clock queryDatadogExternal p emList i em w Hi) as Hiff.
  fold now in Hiff. unfold fresh in Hiff. rewrite H0 in Hiff. split.
  - intros Hold.
    refine (proj1 (upto_step_stale clock queryDatadogExternal p emList i em w Hi _)).
    fold now. unfold fresh. rewrite H0. intros [Hv Hle].
    destruct Hold as [Hinv | Hpos]; [congruence | lia].
  - intros [em' Hr].
    destruct (Valid em) eqn:Hv; [right | left; reflexivity].
    destruct (Z.lt_ge_cases 0 (Int64.sub now (Timestamp em))) as [Hlt | Hge];
      [exact Hlt | exfalso].
    apply (skipped_not_revalidated clock queryDatadogExternal p emList i w em');
      [| exact Hr].
    apply Hiff. split; [reflexivity | exact Hge].
Qed.

Lemma C2_witness :
  maxAge (NewProcessor 0) = 0 ∧
  [Examples.metric "A" 99 true] !! 0%nat = Some (Examples.metric "A" 99 true) ∧
  ∃ em', revalidated Examples.clock100 Examples.provider_up (NewProcessor 0)
                     [Examples.metric "A" 99 true] 0 Examples.w0 em'.
Proof.
  split; [reflexivity |]. split; [reflexivity |].
  apply (C2_zero_max_age_revalidates_older_records Examples.clock100
           Examples.provider_up (NewProcessor 0) [Examples.metric "A" 99 true] 0
           (Examples.metric "A" 99 true) Examples.w0 eq_refl eq_refl).
  right. vm_compute. reflexivity.
Defined.

(** C2, as stated, fails: with [maxAge = 0], a valid record stamped at the
    second the clock shows is fresh; the provider is not queried for it. *)
Lemma C2_counterexample :
  ¬ (∀ (clock : nat → Z)
       (queryDatadogExternal : nat → string → gmap string string → Z * option error)
       (p : Processor) (emList : list ExternalMetricValue) (i : nat)
       (em : ExternalMetricValue) (w : World),
       maxAge p = 0 → emList !! i = Some em →
       ¬ skipped clock queryDatadogExternal p emList i w ∧
       ∃ em', revalidated clock queryDatadogExternal p emList i w em').
Proof.
  intros H.
  destruct (H Examples.clock100 Examples.provider_up (NewProcessor 0)
              [Examples.metric "A" 100 true] 0%nat (Examples.metric "A" 100 true)
              Examples.w0 eq_refl eq_refl) as [Hns _].
  apply Hns. reflexivity.
Qed.



(** C10.  [UpdateExternalMetrics] writes to copies only: at every point of
    the loop, and when the function returns, the argument slice holds the
    records it held at the call; a record of the result that differs from
    its original is a new value appended to [updated]. *)
Theorem C10_argument_list_untouched
    (clock : nat → Z)
    (queryDatadogExternal : nat → string → gmap string string → Z * option error)
    (p : Processor) (emList : list ExternalMetricValue) (w : World) :
  up_emList (UpdateExternalMetrics_frame clock queryDatadogExternal p emList w).1 = emList ∧
  (∀ n, up_emList (UpdateExternalMetrics_upto clock queryDatadogExternal p emList n w).1
        = emList) ∧
  (UpdateExternalMetrics clock queryDatadogExternal p emList w).1 =
    up_updated (UpdateExternalMetrics_frame clock queryDatadogExternal p emList w).1.
Proof.
  assert (∀ n, up_emList (UpdateExternalMetrics_upto clock queryDatadogExternal p
                            emList n w).1 = emList) as Hall
    by (intros n; apply upto_emList).
  rewrite upto_length. split; [apply Hall |]. split; [exact Hall |].
  unfold UpdateExternalMetrics. run_M. rewrite upto_length.
  destruct (UpdateExternalMetrics_upto clock queryDatadogExternal p emList
              (length emList) w). reflexivity.
Qed.

(** ** The result list *)

Section ResultList.
Variable clock : nat → Z.
Variable queryDatadogExternal : nat → string → gmap string string → Z * option error.
Variable p : Processor.

Local Abbreviation upto := (UpdateExternalMetrics_upto clock queryDatadogExternal p).

(** After [n] iterations, [updated] lists the revalidated copies of exactly
    the records among the first [n] that were not skipped, in index order,
    and the provider has been queried once for each of them. *)
Lemma upto_touched (emList : list ExternalMetricValue) (w : World) (n : nat) :
  (n ≤ length emList)%nat →
  ∃ touched : list nat,
    StronglySorted lt touched ∧
    (∀ i, i ∈ touched ↔
          (i < n)%nat ∧ ¬ skipped clock queryDatadogExternal p emList i w) ∧
    Forall2 (λ i em', revalidated clock queryDatadogExternal p emList i w em')
            touched (up_updated (upto emList n w).1) ∧
    queries (upto emList n w).2 =
      queries w ++ map (λ em', (MetricName em', Labels em'))
                       (up_updated (upto emList n w).1).
Proof.
  induction n as [| n IH]; intros Hn.
  - exists []. cbn. split; [constructor |]. split.
    + intros i. rewrite elem_of_nil. split; [tauto | lia].
    + split; [constructor | rewrite app_nil_r; reflexivity].
  - destruct IH as (touched & Hsorted & Hmem & Hall & Hq); [lia |].
    destruct (lookup_lt_is_Some_2 emList n ltac:(lia)) as [em Hi].
    destruct (decide (fresh p (now_at clock queryDatadogExternal p emList n w) em))
      as [Hf | Hf].
    + pose proof (upto_step_fresh clock queryDatadogExternal p emList n em w Hi Hf) as Hs.
      exists touched. unfold skipped in Hs. cbn zeta in Hs. rewrite Hs. cbn [fst snd queries].
      split; [exact Hsorted |]. split; [| split; [exact Hall | exact Hq]].
      intros i. rewrite Hmem. split.
      * intros [Hlt Hns]. split; [lia | exact Hns].
      * intros [Hlt Hns]. split; [| exact Hns].
        destruct (decide (i = n)) as [-> | Hne]; [| lia].
        exfalso. apply Hns. unfold skipped. cbn zeta. exact Hs.
    + destruct (upto_step_stale clock queryDatadogExternal p emList n em w Hi Hf)
        as [[em' Hr] _].
      pose proof Hr as (em0 & Hi0 & Hem' & _ & Hq' & _ & Hupd).
      rewrite Hi in Hi0. injection Hi0 as <-.
      exists (touched ++ [n]). rewrite Hupd, Hq', Hq. split; [| split; [| split]].
      * apply StronglySorted_app_2; [| exact Hsorted | repeat constructor].
        intros x1 x2 Hx1 Hx2. apply list_elem_of_singleton in Hx2 as ->.
        apply Hmem in Hx1. lia.
      * intros i. rewrite elem_of_app, list_elem_of_singleton, Hmem. split.
        -- intros [[Hlt Hns] | ->]; [split; [lia | exact Hns] |].
           split; [lia |]. intros Hs.
           exact (skipped_not_revalidated clock queryDatadogExternal p emList n w em' Hs Hr).
        -- intros [Hlt Hns]. destruct (decide (i = n)) as [-> | Hne];
             [right; reflexivity | left; split; [lia | exact Hns]].
      * apply Forall2_app; [exact Hall | repeat constructor; exact Hr].
      * rewrite map_app, <- app_assoc. cbn. rewrite Hem'. reflexivity.
Qed.

End ResultList.

(** C6.  The list returned by [UpdateExternalMetrics] consists of the
    revalidated copies of exactly the records that were not skipped, one
    per such record and in the order of their indices in the input; the
    provider was queried once for each of them, in the same order. *)
Theorem C6_result_is_the_revalidated_records_in_input_order
    (clock : nat → Z)
    (queryDatadogExternal : nat → string → gmap string string → Z * option error)
    (p : Processor) (emList : list ExternalMetricValue) (w : World) :
  ∃ touched : list nat,
    StronglySorted lt touched ∧
    (∀ i, i ∈ touched ↔
          (i < length emList)%nat ∧ ¬ skipped clock queryDatadogExternal p emList i w) ∧
    Forall2 (λ i em', revalidated clock queryDatadogExternal p emList i w em')
            touched (UpdateExternalMetrics clock queryDatadogExternal p emList w).1 ∧
    queries (UpdateExternalMetrics clock queryDatadogExternal p emList w).2 =
      queries w ++ map (λ em', (MetricName em', Labels em'))
                       (UpdateExternalMetrics clock queryDatadogExternal p emList w).1.
Proof.
  destruct (upto_touched clock queryDatadogExternal p emList w (length emList)
              ltac:(reflexivity)) as (touched & H1 & H2 & H3 & H4).
  exists touched.
  assert (UpdateExternalMetrics clock queryDatadogExternal p emList w =
          (up_updated (UpdateExternalMetrics_upto clock queryDatadogExternal p emList
                         (length emList) w).1,
           (UpdateExternalMetrics_upto clock queryDatadogExternal p emList
              (length emList) w).2)) as ->.
  { unfold UpdateExternalMetrics. run_M. rewrite upto_length.
    destruct (UpdateExternalMetrics_upto clock queryDatadogExternal p emList
                (length emList) w). reflexivity. }
  cbn [fst snd]. auto.
Qed.

(** ** Timestamps across a pass *)

Section Timestamps.
Variable clock : nat → Z.
Variable queryDatadogExternal : nat → string → gmap string string → Z * option error.
Variable p : Processor.

Local Abbreviation body := (UpdateExternalMetrics_body clock queryDatadogExternal p (maxAge p)).
Local Abbreviation upto := (UpdateExternalMetrics_upto clock queryDatadogExternal p).

Lemma body_ticks (i : nat) (fr : UpdateFrame) (w : World) :
  (ticks w ≤ ticks (body i fr w).2)%nat.
Proof.
  destruct (up_emList fr !! i) as [em |] eqn:Hi.
  - destruct (decide (fresh p (Unix clock (ticks w)) em)) as [Hf | Hf].
    + rewrite (body_fresh clock queryDatadogExternal p i fr em w Hi Hf). cbn. lia.
    + destruct (body_stale clock queryDatadogExternal p i fr em w Hi Hf)
        as (nl & -> & _). cbn. lia.
  - unfold UpdateExternalMetrics_body. rewrite Hi. reflexivity.
Qed.

Lemma upto_ticks (emList : list ExternalMetricValue) (n m : nat) (w : World) :
  (n ≤ m)%nat → (ticks (upto emList n w).2 ≤ ticks (upto emList m w).2)%nat.
Proof.
  induction 1 as [| m Hle IH]; [reflexivity |].
  etransitivity; [exact IH |]. rewrite upto_S.
  destruct (upto emList m w) as [fr w1]. apply body_ticks.
Qed.

Lemma Unix_mono :
  (∀ k, Unix clock k ≤ Unix clock (S k)) →
  ∀ a b, (a ≤ b)%nat → Unix clock a ≤ Unix clock b.
Proof.
  intros Hstep a b Hab. induction Hab as [| b Hab IH]; [reflexivity |].
  etransitivity; [exact IH | apply Hstep].
Qed.

End Timestamps.

(** C9, as the code has it.  Under a clock that does not run backwards, a
    pass of [UpdateExternalMetrics] does not decrease the [lastUpdated] of
    a record that is not stamped ahead of the clock when the pass starts:
    the record is either skipped and stays as it is in the list, or its
    revalidated copy carries a stamp at least as large, which in turn is
    not ahead of the clock when the pass ends. *)
Theorem C9_lastUpdated_does_not_decrease_for_records_not_ahead_of_the_clock
    (clock : nat → Z)
    (queryDatadogExternal : nat → string → gmap string string → Z * option error)
    (p : Processor) (emList : list ExternalMetricValue) (i : nat)
    (em : ExternalMetricValue) (w : World) :
  (∀ k, Unix clock k ≤ Unix clock (S k)) →
  emList !! i = Some em →
  Timestamp em ≤ Unix clock (ticks w) →
  let final := UpdateExternalMetrics_frame clock queryDatadogExternal p emList w in
  (skipped clock queryDatadogExternal p emList i w ∧
   up_emList final.1 !! i = Some em) ∨
  (∃ em', revalidated clock queryDatadogExternal p emList i w em' ∧
          Timestamp em ≤ Timestamp em' ∧
          Timestamp em' ≤ Unix clock (ticks final.2)).
Proof.
  intros Hclock Hi Hts final.
  assert (i < length emList)%nat as Hlt by (eapply lookup_lt_Some; exact Hi).
  destruct (decide (fresh p (now_at clock queryDatadogExternal p emList i w) em))
    as [Hf | Hf].
  - left. split.
    + apply (upto_step_fresh clock queryDatadogExternal p emList i em w Hi Hf).
    + subst final. rewrite upto_length, upto_emList. exact Hi.
  - right.
    destruct (upto_step_stale clock queryDatadogExternal p emList i em w Hi Hf)
      as [[em' Hr] _].
    exists em'. split; [exact Hr |].
    destruct Hr as (em0 & Hi0 & Hem' & Hticks & _).
    rewrite Hi in Hi0. injection Hi0 as <-.
    pose proof (upto_ticks clock queryDatadogExternal p emList 0 i w ltac:(lia)) as H0i.
    pose proof (upto_ticks clock queryDatadogExternal p emList (S i) (length emList) w
                  ltac:(lia)) as Hif.
    rewrite upto_0 in H0i. cbn [snd] in H0i.
    subst final. rewrite upto_length. rewrite Hem'. cbn [Timestamp]. split.
    + etransitivity; [exact Hts |]. apply Unix_mono; [exact Hclock | lia].
    + apply Unix_mono; [exact Hclock | lia].
Qed.

Lemma C9_witness :
  (∀ k, Unix Examples.clock100 k ≤ Unix Examples.clock100 (S k)) ∧
  [Examples.metric "A" 5 true] !! 0%nat = Some (Examples.metric "A" 5 true) ∧
  Timestamp (Examples.metric "A" 5 true) ≤ Unix Examples.clock100 (ticks Examples.w0) ∧
  ((skipped Examples.clock100 Examples.provider_down (NewProcessor 90)
            [Examples.metric "A" 5 true] 0 Examples.w0 ∧
    up_emList (UpdateExternalMetrics_frame Examples.clock100 Examples.provider_down
                 (NewProcessor 90) [Examples.metric "A" 5 true] Examples.w0).1 !! 0%nat
      = Some (Examples.metric "A" 5 true)) ∨
   (∃ em', revalidated Examples.clock100 Examples.provider_down (NewProcessor 90)
                       [Examples.metric "A" 5 true] 0 Examples.w0 em' ∧
           Timestamp (Examples.metric "A" 5 true) ≤ Timestamp em' ∧
           Timestamp em' ≤
             Unix Examples.clock100
                  (ticks (UpdateExternalMetrics_frame Examples.clock100
                            Examples.provider_down (NewProcessor 90)
                            [Examples.metric "A" 5 true] Examples.w0).2))).
Proof.
  assert (∀ k, Unix Examples.clock100 k ≤ Unix Examples.clock100 (S k)) as Hclock
    by (intros k; unfold Unix, Examples.clock100; lia).
  assert (Timestamp (Examples.metric "A" 5 true)
            ≤ Unix Examples.clock100 (ticks Examples.w0)) as Hts
    by (vm_compute; discriminate).
  split; [exact Hclock |]. split; [reflexivity |]. split; [exact Hts |].
  exact (C9_lastUpdated_does_not_decrease_for_records_not_ahead_of_the_clock
           Examples.clock100 Examples.provider_down (NewProcessor 90)
           [Examples.metric "A" 5 true] 0 (Examples.metric "A" 5 true) Examples.w0
           Hclock eq_refl Hts).
Defined.

(** C9, as stated, fails: an invalid record stamped ahead of the clock is
    revalidated and its copy is stamped with the clock reading, which is
    smaller. *)
Lemma C9_counterexample :
  ¬ (∀ (clock : nat → Z)
       (queryDatadogExternal : nat → string → gmap string string → Z * option error)
       (p : Processor) (emList : list ExternalMetricValue) (i : nat)
       (em em' : ExternalMetricValue) (w : World),
       emList !! i = Some em →
       revalidated clock queryDatadogExternal p emList i w em' →
       Timestamp em ≤ Timestamp em').
Proof.
  intros H.
  specialize (H Examples.clock100 Examples.provider_down (NewProcessor 90)
                [Examples.metric "A" 200 false] 0%nat (Examples.metric "A" 200 false)
                (mkExternalMetricValue "requests" {[ "app" := "web" ]}%string 100
                   (Examples.owner "A") 0 false)
                Examples.w0 eq_refl).
  assert (200 ≤ 100) as Habs; [| lia].
  apply H. exists (Examples.metric "A" 200 false).
  split; [reflexivity |]. cbn zeta. repeat split.
Qed.

(** ** Garbage collection *)

Lemma uids_fold (hpaList : list autoscalingv2.HorizontalPodAutoscaler)
    (acc : gset string) (x : string) :
  x ∈ foldl (λ (uids : gset string) hpa, {[ autoscalingv2.UID hpa ]} ∪ uids) acc hpaList
  ↔ x ∈ acc ∨ x ∈ live_uids hpaList.
Proof.
  revert acc. unfold live_uids.
  induction hpaList as [| hpa l IH]; intros acc; cbn.
  - rewrite elem_of_nil. tauto.
  - rewrite IH, elem_of_union, elem_of_singleton, elem_of_cons. tauto.
Qed.

Lemma deleted_fold (uids : gset string) (emList acc : list ExternalMetricValue) :
  foldl (λ deleted em,
           if decide (UID (HPA em) ∈ uids) then deleted else deleted ++ [em])
        acc emList
  = acc ++ filter (λ em, UID (HPA em) ∉ uids) emList.
Proof.
  revert acc. induction emList as [| em l IH]; intros acc; cbn [foldl].
  - rewrite filter_nil, app_nil_r. reflexivity.
  - rewrite IH, filter_cons.
    destruct (decide (UID (HPA em) ∈ uids)) as [Hin | Hnin].
    + rewrite decide_False by (intros Hn; exact (Hn Hin)). reflexivity.
    + rewrite decide_True by exact Hnin. rewrite <- app_assoc. reflexivity.
Qed.

Lemma ComputeDeleteExternalMetrics_filter
    (hpaList : list autoscalingv2.HorizontalPodAutoscaler)
    (emList : list ExternalMetricValue) (w : World) :
  ComputeDeleteExternalMetrics hpaList emList w =
    (filter (λ em, UID (HPA em) ∉ live_uids hpaList) emList, w).
Proof.
  lazy beta iota zeta delta [ComputeDeleteExternalMetrics
    ComputeDeleteExternalMetrics_frame mbind M_bind mret M_ret gc_deleted].
  rewrite deleted_fold, app_nil_l. f_equal.
  apply list_filter_iff. intros em. rewrite uids_fold, elem_of_empty. tauto.
Qed.

(** C4.  A record is in the deletion list if and only if it is in the
    stored list and its owner uid is not the uid of any live policy object;
    the deletion list is the stored list with the owned records filtered
    out, so every occurrence is decided on its own and order is kept.  With
    policies of uids A and B and records owned by A, B and C, exactly the
    record owned by C is returned. *)
Theorem C4_deleted_iff_owner_uid_absent
    (hpaList : list autoscalingv2.HorizontalPodAutoscaler)
    (emList : list ExternalMetricValue) (w : World) :
  (∀ em, em ∈ (ComputeDeleteExternalMetrics hpaList emList w).1 ↔
         em ∈ emList ∧ UID (HPA em) ∉ live_uids hpaList) ∧
  (ComputeDeleteExternalMetrics hpaList emList w).1 =
    filter (λ em, UID (HPA em) ∉ live_uids hpaList) emList ∧
  (ComputeDeleteExternalMetrics
     [Examples.policy "A" []; Examples.policy "B" []]
     [Examples.metric "A" 0 true; Examples.metric "B" 0 true; Examples.metric "C" 0 true]
     w).1
  = [Examples.metric "C" 0 true].
Proof.
  rewrite !ComputeDeleteExternalMetrics_filter. cbn [fst].
  split; [| split; [reflexivity | vm_compute; reflexivity]].
  intros em. rewrite list_elem_of_filter. tauto.
Qed.

(** C5.  [ComputeDeleteExternalMetrics] leaves the world as it finds it (no
    clock read, no provider query, no log line) and both argument slices as
    they were; its result does not depend on the world, and a second call
    on the state the first one left returns the same deletion list.  The
    deletion list is also a fixed point: collecting it again against the
    same policies returns it unchanged. *)
Theorem C5_gc_is_pure_and_idempotent
    (hpaList : list autoscalingv2.HorizontalPodAutoscaler)
    (emList : list ExternalMetricValue) (w : World) :
  let first := ComputeDeleteExternalMetrics_frame hpaList emList w in
  first.2 = w ∧
  gc_list first.1 = hpaList ∧
  gc_emList first.1 = emList ∧
  ComputeDeleteExternalMetrics hpaList emList w = (gc_deleted first.1, w) ∧
  ComputeDeleteExternalMetrics (gc_list first.1) (gc_emList first.1) first.2
    = (gc_deleted first.1, first.2) ∧
  (∀ w', (ComputeDeleteExternalMetrics hpaList emList w').1 = gc_deleted first.1) ∧
  (ComputeDeleteExternalMetrics hpaList (gc_deleted first.1) w).1 = gc_deleted first.1.
Proof.
  intros first.
  assert (gc_deleted first.1 = filter (λ em, UID (HPA em) ∉ live_uids hpaList) emList)
    as Hd.
  { pose proof (ComputeDeleteExternalMetrics_filter hpaList emList w) as Hf.
    change (ComputeDeleteExternalMetrics hpaList emList w)
      with (gc_deleted first.1, w) in Hf.
    injection Hf as Hf. exact Hf. }
  do 5 (split; [reflexivity |]). split.
  - intros w'. rewrite ComputeDeleteExternalMetrics_filter, Hd. reflexivity.
  - rewrite ComputeDeleteExternalMetrics_filter, Hd. cbn [fst].
    apply list_filter_filter_l. tauto.
Qed.

(** ** Extraction *)

Section Extraction.
Variable clock : nat → Z.
Variable queryDatadogExternal : nat → string → gmap string string → Z * option error.
Variable p : Processor.
Variable hpa : autoscalingv2.HorizontalPodAutoscaler.

(** What the loop of [ProcessHPAs] adds to its locals and to the world when
    it runs over the metric specs [l]. *)
Lemma ProcessHPAs_loop (l : list autoscalingv2.MetricSpec)
    (acc : list ExternalMetricValue) (err : option error) (w : World) :
  ∃ new err' new_logs,
    for_each (ProcessHPAs_body clock queryDatadogExternal p hpa) l (acc, err) w =
      ((acc ++ new, err'),
       mkWorld (ticks w + length (external_sources l))
               (queries w ++
                  map (λ src, (autoscalingv2.MetricName src, autoscalingv2.MatchLabels src))
                      (external_sources l))
               (logs w ++ new_logs)) ∧
    Forall2 (λ src m, MetricName m = autoscalingv2.MetricName src ∧
                      Labels m = autoscalingv2.MatchLabels src ∧
                      HPA m = owner_of hpa)
            (external_sources l) new ∧
    Forall (λ line, level line = LevelDebug) new_logs.
Proof.
  revert acc err w. induction l as [| metricSpec l IH]; intros acc err w.
  - exists [], err, []. cbn. rewrite !app_nil_r, Nat.add_0_r.
    destruct w. split; [reflexivity | split; constructor].
  - assert (∀ (ty : autoscalingv2.MetricSourceType),
              external_sources (metricSpec :: l) = external_sources l →
              ProcessHPAs_body clock queryDatadogExternal p hpa (acc, err) metricSpec w =
                ((acc, err),
                 mkWorld (ticks w) (queries w)
                   (logs w ++ [mkLogLine LevelDebug "Unsupported metric type %s"
                                         [ArgType ty]])) →
              ∃ new err' new_logs,
                for_each (ProcessHPAs_body clock queryDatadogExternal p hpa)
                         (metricSpec :: l) (acc, err) w =
                  ((acc ++ new, err'),
                   mkWorld (ticks w + length (external_sources (metricSpec :: l)))
                     (queries w ++
                        map (λ src, (autoscalingv2.MetricName src,
                                     autoscalingv2.MatchLabels src))
                            (external_sources (metricSpec :: l)))
                     (logs w ++ new_logs)) ∧
                Forall2 (λ src m, MetricName m = autoscalingv2.MetricName src ∧
                                  Labels m = autoscalingv2.MatchLabels src ∧
                                  HPA m = owner_of hpa)
                        (external_sources (metricSpec :: l)) new ∧
                Forall (λ line, level line = LevelDebug) new_logs) as Hother.
    { intros ty Hsrc Hbody. rewrite Hsrc.
      destruct (IH acc err
                  (mkWorld (ticks w) (queries w)
                     (logs w ++ [mkLogLine LevelDebug "Unsupported metric type %s"
                                           [ArgType ty]])))
        as (new & err' & nl & Hrun & Hnew & Hnl).
      exists new, err', (mkLogLine LevelDebug "Unsupported metric type %s" [ArgType ty] :: nl).
      split; [| split; [exact Hnew | constructor; [reflexivity | exact Hnl]]].
      cbn [for_each]. unfold mbind, M_bind at 1. rewrite Hbody, Hrun. cbn.
      rewrite <- app_assoc. reflexivity. }
    destruct metricSpec as [| | | External].
    + apply (Hother autoscalingv2.ObjectMetricSourceType); reflexivity.
    + apply (Hother autoscalingv2.PodsMetricSourceType); reflexivity.
    + apply (Hother autoscalingv2.ResourceMetricSourceType); reflexivity.
    + clear Hother.
      change (external_sources (autoscalingv2.ExternalMetric External :: l))
        with (External :: external_sources l).
      cbn [for_each]. unfold mbind, M_bind at 1.
      destruct (queryDatadogExternal (length (queries w))
                  (autoscalingv2.MetricName External)
                  (autoscalingv2.MatchLabels External)) as [val e] eqn:Hq.
      set (m := mkExternalMetricValue (autoscalingv2.MetricName External)
                  (autoscalingv2.MatchLabels External) (Unix clock (ticks w))
                  (owner_of hpa) val (bool_decide (e = None))).
      assert (∃ nl1,
                ProcessHPAs_body clock queryDatadogExternal p hpa (acc, err)
                  (autoscalingv2.ExternalMetric External) w =
                  ((acc ++ [m], e),
                   mkWorld (S (ticks w))
                     (queries w ++ [(autoscalingv2.MetricName External,
                                     autoscalingv2.MatchLabels External)])
                     (logs w ++ nl1)) ∧
                Forall (λ line, level line = LevelDebug) nl1) as (nl1 & Hbody & Hnl1).
      { unfold ProcessHPAs_body, validateExternalMetric, call_queryDatadogExternal,
          Now_Unix, mbind, M_bind, mret, M_ret. cbn. rewrite Hq. subst m.
        destruct e as [e |]; cbn.
        - eexists. split; [reflexivity | repeat constructor].
        - exists []. rewrite app_nil_r. split; [reflexivity | constructor]. }
      rewrite Hbody.
      destruct (IH (acc ++ [m]) e
                  (mkWorld (S (ticks w))
                     (queries w ++ [(autoscalingv2.MetricName External,
                                     autoscalingv2.MatchLabels External)])
                     (logs w ++ nl1)))
        as (new & err' & nl & Hrun & Hnew & Hnl).
      exists (m :: new), err', (nl1 ++ nl). rewrite Hrun. cbn.
      split; [| split].
      * rewrite <- !app_assoc. cbn. rewrite Nat.add_succ_r. reflexivity.
      * constructor; [repeat split | exact Hnew].
      * apply Forall_app. split; assumption.
Qed.

End Extraction.

(** The records, queries and log lines of one call of [ProcessHPAs]. *)
Lemma ProcessHPAs_records
    (clock : nat → Z)
    (queryDatadogExternal : nat → string → gmap string string → Z * option error)
    (p : Processor) (hpa : autoscalingv2.HorizontalPodAutoscaler) (w : World) :
  let r := ProcessHPAs clock queryDatadogExternal p hpa w in
  Forall2 (λ src m, MetricName m = autoscalingv2.MetricName src ∧
                    Labels m = autoscalingv2.MatchLabels src ∧
                    HPA m = owner_of hpa)
          (external_sources (autoscalingv2.Metrics hpa)) r.1 ∧
  queries r.2 =
    queries w ++
      map (λ src, (autoscalingv2.MetricName src, autoscalingv2.MatchLabels src))
          (external_sources (autoscalingv2.Metrics hpa)) ∧
  ∃ new_logs,
    logs r.2 = logs w ++ new_logs ∧
    (autoscalingv2.Metrics hpa = [] ∨ Forall (λ line, level line = LevelDebug) new_logs).
Proof.
  intros r. subst r. unfold ProcessHPAs.
  destruct (autoscalingv2.Metrics hpa) as [| metricSpec l] eqn:Hm.
  - cbn. rewrite app_nil_r. split; [constructor |]. split; [reflexivity |].
    eexists. split; [reflexivity | left; reflexivity].
  - rewrite bool_decide_eq_false_2 by (cbn; lia).
    destruct (ProcessHPAs_loop clock queryDatadogExternal p hpa (metricSpec :: l)
                [] None w) as (new & err' & nl & Hrun & Hnew & Hnl).
    run_M. rewrite Hrun. cbn [fst snd queries logs].
    split; [exact Hnew |]. split; [reflexivity |].
    exists nl. split; [reflexivity | right; exact Hnl].
Qed.

(** C7.  [ProcessHPAs] returns one record per metric spec entry tagged
    "external", in spec order, each carrying the entry's metric name and
    labels and the policy object as owner; the provider is queried once per
    such entry and for no other.  Entries of any other type add nothing but
    a debug-level log line: an error-level line is logged only for an empty
    metric list.  A spec with one "external" entry and one entry of another
    type yields exactly one record. *)
Theorem C7_one_record_per_external_entry
    (clock : nat → Z)
    (queryDatadogExternal : nat → string → gmap string string → Z * option error)
    (p : Processor) (hpa : autoscalingv2.HorizontalPodAutoscaler) (w : World) :
  let r := ProcessHPAs clock queryDatadogExternal p hpa w in
  Forall2 (λ src m, MetricName m = autoscalingv2.MetricName src ∧
                    Labels m = autoscalingv2.MatchLabels src ∧
                    HPA m = owner_of hpa)
          (external_sources (autoscalingv2.Metrics hpa)) r.1 ∧
  length r.1 = length (external_sources (autoscalingv2.Metrics hpa)) ∧
  queries r.2 =
    queries w ++
      map (λ src, (autoscalingv2.MetricName src, autoscalingv2.MatchLabels src))
          (external_sources (autoscalingv2.Metrics hpa)) ∧
  (∃ new_logs,
     logs r.2 = logs w ++ new_logs ∧
     (autoscalingv2.Metrics hpa = [] ∨
      Forall (λ line, level line = LevelDebug) new_logs)) ∧
  length (ProcessHPAs clock queryDatadogExternal p
            (Examples.policy "A" [autoscalingv2.PodsMetric; Examples.external_requests])
            w).1 = 1%nat.
Proof.
  intros r.
  destruct (ProcessHPAs_records clock queryDatadogExternal p hpa w) as (H1 & H2 & H3).
  fold r in H1, H2, H3.
  split; [exact H1 |]. split; [| split; [exact H2 | split; [exact H3 |]]].
  - symmetry. eapply Forall2_length. exact H1.
  - destruct (ProcessHPAs_records clock queryDatadogExternal p
                (Examples.policy "A" [autoscalingv2.PodsMetric; Examples.external_requests])
                w) as (Hex & _).
    apply Forall2_length in Hex. rewrite <- Hex. reflexivity.
Qed.

(** C8.  For a policy object with an empty metric-spec list [ProcessHPAs]
    logs one error-level line and returns the empty list; it reads no
    clock, queries no provider and builds no record. *)
Theorem C8_empty_metric_list_is_reported_and_yields_nothing
    (clock : nat → Z)
    (queryDatadogExternal : nat → string → gmap string string → Z * option error)
    (p : Processor) (hpa : autoscalingv2.HorizontalPodAutoscaler) (w : World) :
  autoscalingv2.Metrics hpa = [] →
  ProcessHPAs clock queryDatadogExternal p hpa w =
    ([],
     mkWorld (ticks w) (queries w)
       (logs w ++
          [mkLogLine LevelError "Error processing %s/%s's external metrics, empty list"
             [ArgString (autoscalingv2.Namespace hpa);
              ArgString (autoscalingv2.Name hpa)]])).
Proof.
  intros Hm. unfold ProcessHPAs. rewrite Hm. reflexivity.
Qed.

Lemma C8_witness :
  autoscalingv2.Metrics (Examples.policy "A" []) = [] ∧
  ProcessHPAs Examples.clock100 Examples.provider_up (NewProcessor 90)
              (Examples.policy "A" []) Examples.w0 =
    ([],
     mkWorld 0 []
       [mkLogLine LevelError "Error processing %s/%s's external metrics, empty list"
          [ArgString "default"; ArgString "web"]]).
Proof.
  split; [reflexivity |].
  exact (C8_empty_metric_list_is_reported_and_yields_nothing Examples.clock100
           Examples.provider_up (NewProcessor 90) (Examples.policy "A" []) Examples.w0
           eq_refl).
Defined.

(** ** How runs of the loop compose *)

Section Composition.
Variable clock : nat → Z.
Variable queryDatadogExternal : nat → string → gmap string string → Z * option error.
Variable p : Processor.

Local Abbreviation body := (UpdateExternalMetrics_body clock queryDatadogExternal p (maxAge p)).
Local Abbreviation upto := (UpdateExternalMetrics_upto clock queryDatadogExternal p).

Lemma for_range_app {S : Type} (f : nat → S → M S) (n m lo : nat) (s : S) (w : World) :
  for_range f lo (n + m) s w =
    let (s', w') := for_range f lo n s w in for_range f (lo + n) m s' w'.
Proof.
  revert lo s w. induction n as [| n IH]; intros lo s w.
  - cbn. run_M. rewrite Nat.add_0_r. reflexivity.
  - change (for_range f lo (Datatypes.S n + m) s w)
      with (let (s', w') := f lo s w in for_range f (Datatypes.S lo) (n + m) s' w').
    change (for_range f lo (Datatypes.S n) s w)
      with (let (s', w') := f lo s w in for_range f (Datatypes.S lo) n s' w').
    destruct (f lo s w) as [s1 w1]. rewrite IH.
    replace (Datatypes.S lo + n)%nat with (lo + Datatypes.S n)%nat by lia. reflexivity.
Qed.

Lemma for_range_emList (lo n : nat) (fr : UpdateFrame) (w : World) :
  up_emList (for_range body lo n fr w).1 = up_emList fr.
Proof.
  induction n as [| n IH]; [reflexivity |].
  rewrite for_range_snoc. destruct (for_range body lo n fr w) as [fr1 w1].
  rewrite (body_emList clock queryDatadogExternal p). exact IH.
Qed.

(** One iteration looks at the record it reads and at the world only: on
    the same record and world it appends the same records and leaves the
    same world, whatever the frame holds otherwise. *)
Lemma body_agree (i j : nat) (fr1 fr2 : UpdateFrame) (w : World) :
  up_emList fr1 !! i = up_emList fr2 !! j →
  ∃ o, up_updated (body i fr1 w).1 = up_updated fr1 ++ o ∧
       up_updated (body j fr2 w).1 = up_updated fr2 ++ o ∧
       (body i fr1 w).2 = (body j fr2 w).2.
Proof.
  intros H. unfold UpdateExternalMetrics_body. rewrite <- H.
  destruct (up_emList fr1 !! i) as [em |].
  - run_M. unfold Now_Unix. cbn.
    destruct (bool_decide (Int64.sub (Unix clock (ticks w)) (Timestamp em) ≤ maxAge p)
                && Valid em).
    + exists []. rewrite !app_nil_r. repeat split.
    + unfold validateExternalMetric, call_queryDatadogExternal. run_M. cbn.
      destruct (queryDatadogExternal (length (queries w)) (MetricName em) (Labels em))
        as [val [e |]]; cbn; eexists [_]; repeat split.
  - exists []. rewrite !app_nil_r. repeat split.
Qed.

Lemma for_range_agree (n o1 o2 : nat) (fr1 fr2 : UpdateFrame) (w : World) :
  (∀ k, (k < n)%nat → up_emList fr1 !! (o1 + k)%nat = up_emList fr2 !! (o2 + k)%nat) →
  ∃ o, up_updated (for_range body o1 n fr1 w).1 = up_updated fr1 ++ o ∧
       up_updated (for_range body o2 n fr2 w).1 = up_updated fr2 ++ o ∧
       (for_range body o1 n fr1 w).2 = (for_range body o2 n fr2 w).2.
Proof.
  induction n as [| n IH]; intros Hsame.
  - exists []. rewrite !app_nil_r. repeat split.
  - destruct IH as (o & Hu1 & Hu2 & Hw); [intros k Hk; apply Hsame; lia |].
    rewrite !for_range_snoc.
    pose proof (for_range_emList o1 n fr1 w) as He1.
    pose proof (for_range_emList o2 n fr2 w) as He2.
    destruct (for_range body o1 n fr1 w) as [g1 w1].
    destruct (for_range body o2 n fr2 w) as [g2 w2]. cbn [fst snd] in *. subst w2.
    destruct (body_agree (o1 + n) (o2 + n) g1 g2 w1) as (o' & Hb1 & Hb2 & Hbw).
    { rewrite He1, He2. apply Hsame. lia. }
    exists (o ++ o'). rewrite Hb1, Hb2, Hu1, Hu2, !app_assoc. repeat split. exact Hbw.
Qed.

Lemma UpdateExternalMetrics_upto_full (emList : list ExternalMetricValue) (w : World) :
  UpdateExternalMetrics clock queryDatadogExternal p emList w =
    (up_updated (upto emList (length emList) w).1, (upto emList (length emList) w).2).
Proof.
  unfold UpdateExternalMetrics. run_M.
  rewrite (upto_length clock queryDatadogExternal p).
  destruct (upto emList (length emList) w). reflexivity.
Qed.

Lemma UpdateExternalMetrics_app_run (l1 l2 : list ExternalMetricValue) (w : World) :
  UpdateExternalMetrics clock queryDatadogExternal p (l1 ++ l2) w =
    let (u1, w1) := UpdateExternalMetrics clock queryDatadogExternal p l1 w in
    let (u2, w2) := UpdateExternalMetrics clock queryDatadogExternal p l2 w1 in
    (u1 ++ u2, w2).
Proof.
  rewrite !UpdateExternalMetrics_upto_full. unfold UpdateExternalMetrics_upto.
  rewrite length_app, for_range_app.
  destruct (for_range_agree (length l1) 0 0 (mkUpdateFrame (l1 ++ l2) None [])
              (mkUpdateFrame l1 None []) w) as (o & Hu1 & Hu2 & Hw).
  { intros k Hk. cbn. apply lookup_app_l. exact Hk. }
  pose proof (for_range_emList 0 (length l1) (mkUpdateFrame (l1 ++ l2) None []) w) as He.
  destruct (for_range body 0 (length l1) (mkUpdateFrame (l1 ++ l2) None []) w)
    as [g1 w1].
  destruct (for_range body 0 (length l1) (mkUpdateFrame l1 None []) w) as [g1' w1'].
  cbn [fst snd up_updated up_emList app] in *. subst w1'.
  destruct (for_range_agree (length l2) (0 + length l1) 0 g1
              (mkUpdateFrame l2 None []) w1) as (o' & Hv1 & Hv2 & Hw').
  { intros k Hk. rewrite He. cbn [up_emList]. rewrite lookup_app_r by lia.
    f_equal. lia. }
  rewrite Hv1, Hw'. cbn [up_updated app] in Hv2. rewrite Hv2, Hu1, Hu2. reflexivity.
Qed.

End Composition.

(** ** A pass, record by record *)

Section Pass.
Variable clock : nat → Z.
Variable queryDatadogExternal : nat → string → gmap string string → Z * option error.
Variable p : Processor.

Local Abbreviation Update := (UpdateExternalMetrics clock queryDatadogExternal p).

Lemma UpdateExternalMetrics_one_fresh (em : ExternalMetricValue) (w : World) :
  fresh p (Unix clock (ticks w)) em →
  Update [em] w = ([], mkWorld (S (ticks w)) (queries w) (logs w)).
Proof.
  intros Hf. rewrite UpdateExternalMetrics_upto_full. cbn [length].
  rewrite (upto_S clock queryDatadogExternal p), upto_0.
  rewrite (body_fresh clock queryDatadogExternal p 0 (mkUpdateFrame [em] None []) em w
             eq_refl Hf). reflexivity.
Qed.

Lemma UpdateExternalMetrics_one_stale (em : ExternalMetricValue) (w : World) :
  ¬ fresh p (Unix clock (ticks w)) em →
  let r := queryDatadogExternal (length (queries w)) (MetricName em) (Labels em) in
  let em' := mkExternalMetricValue (MetricName em) (Labels em)
               (Unix clock (S (ticks w))) (HPA em) r.1 (bool_decide (r.2 = None)) in
  ∃ new_logs,
    Update [em] w =
      ([em'],
       mkWorld (S (S (ticks w))) (queries w ++ [(MetricName em, Labels em)])
               (logs w ++ new_logs)) ∧
    Forall (λ l, level l = LevelDebug) new_logs.
Proof.
  intros Hf r em'. rewrite UpdateExternalMetrics_upto_full. cbn [length].
  rewrite (upto_S clock queryDatadogExternal p), upto_0.
  destruct (body_stale clock queryDatadogExternal p 0 (mkUpdateFrame [em] None []) em w
              eq_refl Hf) as (nl & Hb & Hnl).
  cbn zeta in Hb. rewrite Hb. exists nl. split; [reflexivity | exact Hnl].
Qed.

Lemma UpdateExternalMetrics_cons (em : ExternalMetricValue)
    (l : list ExternalMetricValue) (w : World) :
  Update (em :: l) w =
    let (u1, w1) := Update [em] w in
    let (u2, w2) := Update l w1 in
    (u1 ++ u2, w2).
Proof. apply (UpdateExternalMetrics_app_run clock queryDatadogExternal p [em] l w). Qed.

(** What a pass adds up to: clock reads, provider queries, log lines, and
    where the stamps and the keys of the returned records come from. *)
Lemma UpdateExternalMetrics_summary (l : list ExternalMetricValue) (w : World) :
  ticks (Update l w).2 = (ticks w + length l + length (Update l w).1)%nat ∧
  queries (Update l w).2 =
    queries w ++ map (λ em', (MetricName em', Labels em')) (Update l w).1 ∧
  (∃ new_logs, logs (Update l w).2 = logs w ++ new_logs ∧
               Forall (λ line, level line = LevelDebug) new_logs) ∧
  map record_key (Update l w).1 `sublist_of` map record_key l ∧
  Forall (λ em', ∃ k, (ticks w < k < ticks (Update l w).2)%nat ∧
                      Timestamp em' = Unix clock k) (Update l w).1.
Proof.
  revert w. induction l as [| em l IH]; intros w.
  - assert (Update [] w = ([], w)) as -> by reflexivity.
    cbn [fst snd length map]. rewrite !app_nil_r. split; [lia |].
    split; [reflexivity |].
    split; [exists []; rewrite app_nil_r; split; [reflexivity | constructor] |].
    split; [reflexivity | constructor].
  - rewrite UpdateExternalMetrics_cons.
    destruct (decide (fresh p (Unix clock (ticks w)) em)) as [Hf | Hf].
    + rewrite (UpdateExternalMetrics_one_fresh em w Hf).
      specialize (IH (mkWorld (S (ticks w)) (queries w) (logs w))).
      destruct (Update l (mkWorld (S (ticks w)) (queries w) (logs w))) as [u2 w2].
      cbn [fst snd ticks queries logs app length map] in *.
      destruct IH as (Ht & Hq & Hl & Hs & Hst).
      split; [lia |]. split; [exact Hq |]. split; [exact Hl |].
      split; [apply sublist_cons; exact Hs |].
      eapply Forall_impl; [exact Hst |].
      intros em' (k & Hk & Hts). exists k. split; [lia | exact Hts].
    + destruct (UpdateExternalMetrics_one_stale em w Hf) as (nl & Hone & Hnl).
      cbn zeta in Hone. rewrite Hone.
      specialize (IH (mkWorld (S (S (ticks w)))
                        (queries w ++ [(MetricName em, Labels em)]) (logs w ++ nl))).
      destruct (Update l (mkWorld (S (S (ticks w)))
                            (queries w ++ [(MetricName em, Labels em)]) (logs w ++ nl)))
        as [u2 w2].
      cbn [fst snd ticks queries logs app length map] in *.
      destruct IH as (Ht & Hq & (nl2 & Hl & Hnl2) & Hs & Hst).
      split; [lia |]. split; [rewrite Hq, <- app_assoc; reflexivity |].
      split.
      { exists (nl ++ nl2). rewrite Hl, <- app_assoc. split; [reflexivity |].
        apply Forall_app. split; assumption. }
      split; [apply sublist_skip; exact Hs |].
      constructor.
      * exists (S (ticks w)). split; [lia | reflexivity].
      * eapply Forall_impl; [exact Hst |].
        intros em' (k & Hk & Hts). exists k. split; [lia | exact Hts].
Qed.

(** A pass over records that are all fresh when their turn comes reads the
    clock once per record and does nothing else. *)
Lemma UpdateExternalMetrics_all_fresh (l : list ExternalMetricValue) (w : World) :
  (∀ i em, l !! i = Some em → fresh p (Unix clock (ticks w + i)) em) →
  Update l w = ([], mkWorld (ticks w + length l) (queries w) (logs w)).
Proof.
  revert w. induction l as [| em l IH]; intros w Hall.
  - cbn. rewrite Nat.add_0_r. destruct w; reflexivity.
  - rewrite UpdateExternalMetrics_cons.
    rewrite (UpdateExternalMetrics_one_fresh em w).
    + rewrite IH.
      * cbn [ticks queries logs length app]. do 2 f_equal. lia.
      * intros i em0 Hi. cbn [ticks].
        replace (S (ticks w) + i)%nat with (ticks w + S i)%nat by lia.
        apply Hall. exact Hi.
    + specialize (Hall 0%nat em eq_refl). rewrite Nat.add_0_r in Hall. exact Hall.
Qed.

End Pass.

Lemma Int64_wrap_le (z : Z) : 0 ≤ z → Int64.wrap z ≤ z.
Proof.
  intros Hz. unfold Int64.wrap, Int64.min_int, Int64.modulus.
  pose proof (Z.mod_le (z - - 2 ^ 63) (2 ^ 64) ltac:(lia) ltac:(lia)). lia.
Qed.

Lemma Int64_wrap_overflow (z : Z) :
  Int64.max_int < z ≤ Int64.max_int - Int64.min_int → Int64.wrap z = z - Int64.modulus.
Proof.
  unfold Int64.wrap, Int64.min_int, Int64.max_int, Int64.modulus. intros Hz.
  replace (z - - 2 ^ 63) with ((z - 2 ^ 63) + 1 * 2 ^ 64) by lia.
  rewrite Z.mod_add by lia. rewrite Z.mod_small; lia.
Qed.

(** ** Further properties of [validateExternalMetric] and [NewProcessor] *)


(** X2.  A processor built by [NewProcessor] from a setting of [n] seconds
    that fits a [time.Duration] judges freshness against [n]: a record is
    skipped by [UpdateExternalMetrics] if and only if it is valid and not
    older than [n] seconds. *)
Theorem X2_NewProcessor_setting_is_the_freshness_bound
    (clock : nat → Z)
    (queryDatadogExternal : nat → string → gmap string string → Z * option error)
    (n : Z) (emList : list ExternalMetricValue) (i : nat)
    (em : ExternalMetricValue) (w : World) :
  Int64.in_range (n * time.Second) →
  emList !! i = Some em →
  maxAge (NewProcessor n) = n ∧
  (skipped clock queryDatadogExternal (NewProcessor n) emList i w ↔
   Valid em = true ∧
   Int64.sub (now_at clock queryDatadogExternal (NewProcessor n) emList i w)
             (Timestamp em) ≤ n).
Proof.
  intros Hn Hi. pose proof (maxAge_NewProcessor n Hn) as Hm. split; [exact Hm |].
  rewrite (skipped_fresh clock queryDatadogExternal (NewProcessor n) emList i em w Hi).
  unfold fresh. rewrite Hm. reflexivity.
Qed.

Lemma X2_witness :
  Int64.in_range (90 * time.Second) ∧
  [Examples.metric "A" 10 true] !! 0%nat = Some (Examples.metric "A" 10 true) ∧
  maxAge (NewProcessor 90) = 90 ∧
  (skipped Examples.clock100 Examples.provider_up (NewProcessor 90)
           [Examples.metric "A" 10 true] 0 Examples.w0 ↔
   Valid (Examples.metric "A" 10 true) = true ∧
   Int64.sub (now_at Examples.clock100 Examples.provider_up (NewProcessor 90)
                     [Examples.metric "A" 10 true] 0 Examples.w0)
             (Timestamp (Examples.metric "A" 10 true)) ≤ 90).
Proof.
  assert (Int64.in_range (90 * time.Second)) as Hn
    by (unfold Int64.in_range, Int64.min_int, Int64.max_int, time.Second; lia).
  split; [exact Hn |]. split; [reflexivity |].
  exact (X2_NewProcessor_setting_is_the_freshness_bound Examples.clock100
           Examples.provider_up 90 [Examples.metric "A" 10 true] 0
           (Examples.metric "A" 10 true) Examples.w0 Hn eq_refl).
Defined.

(** ** Further properties of [UpdateExternalMetrics] *)

(** X3.  A pass over a concatenation is the pass over the first list
    followed, in the world the first one leaves, by the pass over the
    second; the results are concatenated.  A pass over the empty list
    returns the empty list and does nothing, not even read the clock. *)
Theorem X3_UpdateExternalMetrics_over_a_concatenation
    (clock : nat → Z)
    (queryDatadogExternal : nat → string → gmap string string → Z * option error)
    (p : Processor) (l1 l2 : list ExternalMetricValue) (w : World) :
  UpdateExternalMetrics clock queryDatadogExternal p (l1 ++ l2) w =
    (let (u1, w1) := UpdateExternalMetrics clock queryDatadogExternal p l1 w in
     let (u2, w2) := UpdateExternalMetrics clock queryDatadogExternal p l2 w1 in
     (u1 ++ u2, w2)) ∧
  UpdateExternalMetrics clock queryDatadogExternal p [] w = ([], w).
Proof.
  split; [apply UpdateExternalMetrics_app_run | reflexivity].
Qed.

(** X4.  The cost of a pass: the clock is read once per record of the
    input and once more per record returned, and the provider is queried
    once per record returned, so never more often than there are records in
    the input. *)
Theorem X4_UpdateExternalMetrics_clock_reads_and_queries
    (clock : nat → Z)
    (queryDatadogExternal : nat → string → gmap string string → Z * option error)
    (p : Processor) (emList : list ExternalMetricValue) (w : World) :
  let r := UpdateExternalMetrics clock queryDatadogExternal p emList w in
  ticks r.2 = (ticks w + length emList + length r.1)%nat ∧
  length (queries r.2) = (length (queries w) + length r.1)%nat ∧
  (length r.1 ≤ length emList)%nat.
Proof.
  intros r.
  destruct (UpdateExternalMetrics_summary clock queryDatadogExternal p emList w)
    as (Ht & Hq & _ & Hs & _).
  fold r in Ht, Hq, Hs. split; [exact Ht |]. split.
  - rewrite Hq, length_app, length_map. reflexivity.
  - apply sublist_length in Hs. rewrite !length_map in Hs. exact Hs.
Qed.

(** X5.  [UpdateExternalMetrics] only appends to the log, and only
    debug-level lines: a failing provider never produces an error-level
    line. *)
Theorem X5_UpdateExternalMetrics_logs_at_debug_level_only
    (clock : nat → Z)
    (queryDatadogExternal : nat → string → gmap string string → Z * option error)
    (p : Processor) (emList : list ExternalMetricValue) (w : World) :
  ∃ new_logs,
    logs (UpdateExternalMetrics clock queryDatadogExternal p emList w).2
      = logs w ++ new_logs ∧
    Forall (λ line, level line = LevelDebug) new_logs.
Proof.
  exact (proj1 (proj2 (proj2
           (UpdateExternalMetrics_summary clock queryDatadogExternal p emList w)))).
Qed.

(** X6.  An invalid record is revalidated on every pass, whatever its
    timestamp and whatever the maximum age: the age test only ever spares
    valid records. *)
Theorem X6_invalid_record_is_always_revalidated
    (clock : nat → Z)
    (queryDatadogExternal : nat → string → gmap string string → Z * option error)
    (p : Processor) (emList : list ExternalMetricValue) (i : nat)
    (em : ExternalMetricValue) (w : World) :
  emList !! i = Some em →
  Valid em = false →
  ¬ skipped clock queryDatadogExternal p emList i w ∧
  ∃ em', revalidated clock queryDatadogExternal p emList i w em'.
Proof.
  intros Hi Hv.
  assert (¬ fresh p (now_at clock queryDatadogExternal p emList i w) em) as Hnf
    by (intros [Hv' _]; congruence).
  split.
  - rewrite (skipped_fresh clock queryDatadogExternal p emList i em w Hi). exact Hnf.
  - exact (proj1 (upto_step_stale clock queryDatadogExternal p emList i em w Hi Hnf)).
Qed.

Lemma X6_witness :
  [Examples.metric "A" 100 false] !! 0%nat = Some (Examples.metric "A" 100 false) ∧
  Valid (Examples.metric "A" 100 false) = false ∧
  ¬ skipped Examples.clock100 Examples.provider_down (NewProcessor 90)
            [Examples.metric "A" 100 false] 0 Examples.w0 ∧
  ∃ em', revalidated Examples.clock100 Examples.provider_down (NewProcessor 90)
                     [Examples.metric "A" 100 false] 0 Examples.w0 em'.
Proof.
  split; [reflexivity |]. split; [reflexivity |].
  exact (X6_invalid_record_is_always_revalidated Examples.clock100
           Examples.provider_down (NewProcessor 90) [Examples.metric "A" 100 false] 0
           (Examples.metric "A" 100 false) Examples.w0 eq_refl eq_refl).
Defined.



(** X8.  The age is computed in [int64]: for a valid record stamped so far
    back that [now - lastUpdated] exceeds the largest [int64], the
    difference wraps to a negative number and the record counts as fresh
    under any non-negative maximum age. *)
Theorem X8_age_overflow_makes_a_record_fresh
    (clock : nat → Z)
    (queryDatadogExternal : nat → string → gmap string string → Z * option error)
    (p : Processor) (emList : list ExternalMetricValue) (i : nat)
    (em : ExternalMetricValue) (w : World) :
  emList !! i = Some em →
  Valid em = true →
  Int64.in_range (Timestamp em) →
  0 ≤ maxAge p →
  Int64.max_int < now_at clock queryDatadogExternal p emList i w - Timestamp em →
  Int64.sub (now_at clock queryDatadogExternal p emList i w) (Timestamp em) < 0 ∧
  skipped clock queryDatadogExternal p emList i w.
Proof.
  intros Hi Hv Hts Hm Hold.
  pose proof (Int64_wrap_in_range
                (clock (ticks (UpdateExternalMetrics_upto clock queryDatadogExternal p
                                 emList i w).2))) as Hnow.
  fold (Unix clock (ticks (UpdateExternalMetrics_upto clock queryDatadogExternal p
                             emList i w).2)) in Hnow.
  fold (now_at clock queryDatadogExternal p emList i w) in Hnow.
  assert (Int64.sub (now_at clock queryDatadogExternal p emList i w) (Timestamp em) < 0)
    as Hneg.
  { unfold Int64.sub. rewrite Int64_wrap_overflow.
    - unfold Int64.in_range, Int64.min_int, Int64.max_int, Int64.modulus in *. lia.
    - unfold Int64.in_range, Int64.min_int, Int64.max_int in *. lia. }
  split; [exact Hneg |].
  apply (skipped_fresh clock queryDatadogExternal p emList i em w Hi).
  split; [exact Hv | lia].
Qed.

Lemma X8_witness :
  [Examples.metric "A" (- 2 ^ 63) true] !! 0%nat
    = Some (Examples.metric "A" (- 2 ^ 63) true) ∧
  Int64.sub (now_at Examples.clock100 Examples.provider_up (NewProcessor 90)
                    [Examples.metric "A" (- 2 ^ 63) true] 0 Examples.w0)
            (Timestamp (Examples.metric "A" (- 2 ^ 63) true)) < 0 ∧
  skipped Examples.clock100 Examples.provider_up (NewProcessor 90)
          [Examples.metric "A" (- 2 ^ 63) true] 0 Examples.w0.
Proof.
  split; [reflexivity |].
  apply (X8_age_overflow_makes_a_record_fresh Examples.clock100 Examples.provider_up
           (NewProcessor 90) [Examples.metric "A" (- 2 ^ 63) true] 0
           (Examples.metric "A" (- 2 ^ 63) true) Examples.w0 eq_refl eq_refl).
  - vm_compute. split; discriminate.
  - vm_compute. discriminate.
  - vm_compute. reflexivity.
Defined.

(** X9.  Every record returned by a pass is stamped with a reading of the
    clock taken during that pass (so the stamp is an [int64] value), and
    the keys of the returned records (metric name, labels, owner) form a
    sublist of the keys of the input: no record is invented, duplicated or
    reordered. *)
Theorem X9_returned_records_keep_their_keys_and_carry_fresh_stamps
    (clock : nat → Z)
    (queryDatadogExternal : nat → string → gmap string string → Z * option error)
    (p : Processor) (emList : list ExternalMetricValue) (w : World) :
  let r := UpdateExternalMetrics clock queryDatadogExternal p emList w in
  map record_key r.1 `sublist_of` map record_key emList ∧
  Forall (λ em', ∃ k, (ticks w < k < ticks r.2)%nat ∧
                      Timestamp em' = Unix clock k ∧
                      Int64.in_range (Timestamp em')) r.1.
Proof.
  intros r.
  destruct (UpdateExternalMetrics_summary clock queryDatadogExternal p emList w)
    as (_ & _ & _ & Hs & Hst).
  fold r in Hs, Hst. split; [exact Hs |].
  eapply Forall_impl; [exact Hst |].
  intros em' (k & Hk & Hts). exists k. split; [exact Hk |]. split; [exact Hts |].
  rewrite Hts. apply Int64_wrap_in_range.
Qed.

(** X10.  Refreshing twice: when every record returned by a pass came back
    valid, a second pass over the returned records queries nothing and
    returns the empty list, provided the clock neither runs backwards nor
    advances by more than the maximum age between the first pass and the
    end of the second. *)
Theorem X10_second_pass_over_refreshed_records_is_idle
    (clock : nat → Z)
    (queryDatadogExternal : nat → string → gmap string string → Z * option error)
    (p : Processor) (emList : list ExternalMetricValue) (w : World) :
  let r := UpdateExternalMetrics clock queryDatadogExternal p emList w in
  Forall (λ em', Valid em' = true) r.1 →
  (∀ j k, (ticks w < j)%nat → (j ≤ k)%nat → (k < ticks r.2 + length r.1)%nat →
          0 ≤ Unix clock k - Unix clock j ≤ maxAge p) →
  UpdateExternalMetrics clock queryDatadogExternal p r.1 r.2 =
    ([], mkWorld (ticks r.2 + length r.1) (queries r.2) (logs r.2)).
Proof.
  intros r Hvalid Hclock.
  destruct (UpdateExternalMetrics_summary clock queryDatadogExternal p emList w)
    as (_ & _ & _ & _ & Hst).
  fold r in Hst.
  apply UpdateExternalMetrics_all_fresh. intros i em' Hi.
  assert (em' ∈ r.1) as Hin by (eapply list_elem_of_lookup_2; exact Hi).
  assert (i < length r.1)%nat as Hlt by (eapply lookup_lt_Some; exact Hi).
  rewrite Forall_forall in Hvalid, Hst.
  destruct (Hst em' Hin) as (j & Hj & Hts).
  split; [apply Hvalid; exact Hin |].
  rewrite Hts. unfold Int64.sub.
  specialize (Hclock j (ticks r.2 + i)%nat ltac:(lia) ltac:(lia) ltac:(lia)).
  etransitivity; [apply Int64_wrap_le |]; lia.
Qed.

Lemma X10_witness :
  Forall (λ em', Valid em' = true)
         (UpdateExternalMetrics Examples.clock100 Examples.provider_up (NewProcessor 10)
            [Examples.metric "A" 50 false] Examples.w0).1 ∧
  UpdateExternalMetrics Examples.clock100 Examples.provider_up (NewProcessor 10)
    (UpdateExternalMetrics Examples.clock100 Examples.provider_up (NewProcessor 10)
       [Examples.metric "A" 50 false] Examples.w0).1
    (UpdateExternalMetrics Examples.clock100 Examples.provider_up (NewProcessor 10)
       [Examples.metric "A" 50 false] Examples.w0).2
  = ([],
     mkWorld
       (ticks (UpdateExternalMetrics Examples.clock100 Examples.provider_up
                 (NewProcessor 10) [Examples.metric "A" 50 false] Examples.w0).2
        + length (UpdateExternalMetrics Examples.clock100 Examples.provider_up
                    (NewProcessor 10) [Examples.metric "A" 50 false] Examples.w0).1)
       (queries (UpdateExternalMetrics Examples.clock100 Examples.provider_up
                   (NewProcessor 10) [Examples.metric "A" 50 false] Examples.w0).2)
       (logs (UpdateExternalMetrics Examples.clock100 Examples.provider_up
                (NewProcessor 10) [Examples.metric "A" 50 false] Examples.w0).2)).
Proof.
  assert (Forall (λ em', Valid em' = true)
            (UpdateExternalMetrics Examples.clock100 Examples.provider_up
               (NewProcessor 10) [Examples.metric "A" 50 false] Examples.w0).1) as Hv
    by (vm_compute; repeat constructor).
  split; [exact Hv |].
  apply (X10_second_pass_over_refreshed_records_is_idle Examples.clock100
           Examples.provider_up (NewProcessor 10) [Examples.metric "A" 50 false]
           Examples.w0 Hv).
  intros j k _ _ _. unfold Unix, Examples.clock100. rewrite Z.sub_diag.
  split; [lia | vm_compute; discriminate].
Defined.

(** ** Further properties of [ProcessHPAs] *)

Section ExtractionRecords.
Variable clock : nat → Z.
Variable queryDatadogExternal : nat → string → gmap string string → Z * option error.
Variable p : Processor.
Variable hpa : autoscalingv2.HorizontalPodAutoscaler.

Local Abbreviation pbody := (ProcessHPAs_body clock queryDatadogExternal p hpa).

Lemma ProcessHPAs_body_external (acc : list ExternalMetricValue) (err : option error)
    (External : autoscalingv2.ExternalMetricSource) (w : World) :
  ∃ err' new_logs,
    pbody (acc, err) (autoscalingv2.ExternalMetric External) w =
      ((acc ++ [extracted_record clock queryDatadogExternal hpa (ticks w)
                                 (length (queries w)) External], err'),
       mkWorld (S (ticks w))
               (queries w ++ [(autoscalingv2.MetricName External,
                               autoscalingv2.MatchLabels External)])
               (logs w ++ new_logs)).
Proof.
  unfold ProcessHPAs_body, validateExternalMetric, call_queryDatadogExternal,
    Now_Unix, extracted_record. run_M. cbn.
  destruct (queryDatadogExternal (length (queries w))
              (autoscalingv2.MetricName External)
              (autoscalingv2.MatchLabels External)) as [val [e |]]; cbn.
  - eexists _, _. reflexivity.
  - exists None, []. rewrite app_nil_r. reflexivity.
Qed.

Lemma ProcessHPAs_body_other (acc : list ExternalMetricValue) (err : option error)
    (metricSpec : autoscalingv2.MetricSpec) (w : World) :
  external_sources [metricSpec] = [] →
  ∃ new_logs,
    pbody (acc, err) metricSpec w =
      ((acc, err), mkWorld (ticks w) (queries w) (logs w ++ new_logs)).
Proof.
  destruct metricSpec; cbn; intros H; try discriminate H; eexists; reflexivity.
Qed.

Lemma for_each_cons {A S : Type} (f : S → A → M S) (x : A) (l : list A) (s : S)
    (w : World) :
  for_each f (x :: l) s w = let (s', w') := f s x w in for_each f l s' w'.
Proof. reflexivity. Qed.

Lemma ProcessHPAs_loop_records (l : list autoscalingv2.MetricSpec)
    (acc : list ExternalMetricValue) (err : option error) (w : World) :
  (for_each pbody l (acc, err) w).1.1 =
    acc ++ imap (λ j src, extracted_record clock queryDatadogExternal hpa
                            (ticks w + j) (length (queries w) + j) src)
                (external_sources l) ∧
  ticks (for_each pbody l (acc, err) w).2 = (ticks w + length (external_sources l))%nat.
Proof.
  revert acc err w. induction l as [| metricSpec l IH]; intros acc err w.
  - cbn. rewrite app_nil_r, Nat.add_0_r. split; reflexivity.
  - rewrite for_each_cons.
    destruct (external_sources [metricSpec]) as [| src rest] eqn:Hsrc.
    + destruct (ProcessHPAs_body_other acc err metricSpec w Hsrc) as (nl & ->).
      assert (external_sources (metricSpec :: l) = external_sources l) as ->.
      { change (metricSpec :: l) with ([metricSpec] ++ l).
        unfold external_sources in *. rewrite omap_app, Hsrc. reflexivity. }
      exact (IH acc err (mkWorld (ticks w) (queries w) (logs w ++ nl))).
    + destruct metricSpec as [| | | External]; try discriminate Hsrc.
      destruct (ProcessHPAs_body_external acc err External w) as (err' & nl & ->).
      change (external_sources (autoscalingv2.ExternalMetric External :: l))
        with (External :: external_sources l).
      destruct (IH (acc ++ [extracted_record clock queryDatadogExternal hpa (ticks w)
                                             (length (queries w)) External])
                   err'
                   (mkWorld (S (ticks w))
                      (queries w ++ [(autoscalingv2.MetricName External,
                                      autoscalingv2.MatchLabels External)])
                      (logs w ++ nl))) as [-> ->].
      cbn [ticks queries length]. split; [| lia].
      rewrite imap_cons, <- app_assoc, !Nat.add_0_r. cbn [app]. do 2 f_equal.
      apply imap_ext. intros j src' _. cbn. rewrite length_app. cbn [length].
      f_equal; lia.
Qed.

Lemma ProcessHPAs_exact (w : World) :
  (ProcessHPAs clock queryDatadogExternal p hpa w).1 =
    imap (λ j src, extracted_record clock queryDatadogExternal hpa
                     (ticks w + j) (length (queries w) + j) src)
         (external_sources (autoscalingv2.Metrics hpa)) ∧
  ticks (ProcessHPAs clock queryDatadogExternal p hpa w).2 =
    (ticks w + length (external_sources (autoscalingv2.Metrics hpa)))%nat.
Proof.
  unfold ProcessHPAs.
  destruct (autoscalingv2.Metrics hpa) as [| metricSpec l] eqn:Hm.
  - cbn. rewrite Nat.add_0_r. split; reflexivity.
  - rewrite bool_decide_eq_false_2 by (cbn; lia).
    destruct (ProcessHPAs_loop_records (metricSpec :: l) [] None w) as [H1 H2].
    run_M.
    destruct (for_each pbody (metricSpec :: l) ([], None) w) as [[ems e] w'].
    cbn [fst snd] in *. split; [exact H1 | exact H2].
Qed.

End ExtractionRecords.

(** X11.  The records of [ProcessHPAs], field by field: the [j]-th record
    belongs to the [j]-th "external" entry, is stamped with the [j]-th
    clock reading of the call, carries the value of the [j]-th provider
    query of the call, is valid exactly when that query returned no error,
    and is owned by the policy object.  The clock is read once per
    "external" entry and never for another entry. *)
Theorem X11_ProcessHPAs_records_field_by_field
    (clock : nat → Z)
    (queryDatadogExternal : nat → string → gmap string string → Z * option error)
    (p : Processor) (hpa : autoscalingv2.HorizontalPodAutoscaler) (w : World) :
  (ProcessHPAs clock queryDatadogExternal p hpa w).1 =
    imap (λ j src,
            let r := queryDatadogExternal (length (queries w) + j)%nat
                       (autoscalingv2.MetricName src) (autoscalingv2.MatchLabels src) in
            mkExternalMetricValue
              (autoscalingv2.MetricName src) (autoscalingv2.MatchLabels src)
              (Unix clock (ticks w + j)%nat) (owner_of hpa) r.1
              (bool_decide (r.2 = None)))
         (external_sources (autoscalingv2.Metrics hpa)) ∧
  ticks (ProcessHPAs clock queryDatadogExternal p hpa w).2 =
    (ticks w + length (external_sources (autoscalingv2.Metrics hpa)))%nat.
Proof. exact (ProcessHPAs_exact clock queryDatadogExternal p hpa w). Qed.

(** ** Filters that keep everything or nothing *)

Section FilterExtremes.
Context {A : Type} (P : A → Prop) `{!∀ x, Decision (P x)}.

Lemma filter_eq_nil (l : list A) : filter P l = [] ↔ Forall (λ x, ¬ P x) l.
Proof.
  induction l as [| x l IH]; [split; [constructor | reflexivity] |].
  rewrite filter_cons, Forall_cons. destruct (decide (P x)) as [Hx | Hx].
  - split; [discriminate | intros [Hn _]; contradiction].
  - rewrite IH. tauto.
Qed.

Lemma filter_eq_all (l : list A) : filter P l = l ↔ Forall P l.
Proof.
  induction l as [| x l IH]; [split; [constructor | reflexivity] |].
  rewrite filter_cons, Forall_cons. destruct (decide (P x)) as [Hx | Hx].
  - split.
    + intros Heq. injection Heq as Heq. split; [exact Hx | apply IH; exact Heq].
    + intros [_ Hl]. f_equal. apply IH. exact Hl.
  - split; [| intros [Hp _]; contradiction].
    intros Heq. exfalso. pose proof (length_filter P l) as Hlen.
    rewrite Heq in Hlen. cbn in Hlen. lia.
Qed.

End FilterExtremes.

(** X12.  Extraction and GC agree on ownership: the records [ProcessHPAs]
    extracts from a policy object are all collected when that object's uid
    is not among the live ones, and none of them is collected when it is,
    whatever their metric names, values and validity. *)
Theorem X12_extracted_records_live_and_die_with_their_policy
    (clock : nat → Z)
    (queryDatadogExternal : nat → string → gmap string string → Z * option error)
    (p : Processor) (hpa : autoscalingv2.HorizontalPodAutoscaler)
    (hpaList : list autoscalingv2.HorizontalPodAutoscaler) (w w' : World) :
  ComputeDeleteExternalMetrics hpaList
    (ProcessHPAs clock queryDatadogExternal p hpa w).1 w' =
  (if decide (autoscalingv2.UID hpa ∈ live_uids hpaList)
   then []
   else (ProcessHPAs clock queryDatadogExternal p hpa w).1,
   w').
Proof.
  rewrite ComputeDeleteExternalMetrics_filter. f_equal.
  destruct (ProcessHPAs_records clock queryDatadogExternal p hpa w) as (Hrec & _).
  assert (Forall (λ m, UID (HPA m) = autoscalingv2.UID hpa)
                 (ProcessHPAs clock queryDatadogExternal p hpa w).1) as Hown.
  { cbn zeta in Hrec.
    induction Hrec as [| src m srcs ms (_ & _ & Hm) _ IH]; constructor; [| exact IH].
    rewrite Hm. reflexivity. }
  destruct (decide (autoscalingv2.UID hpa ∈ live_uids hpaList)) as [Hlive | Hdead].
  - apply filter_eq_nil. eapply Forall_impl; [exact Hown |].
    intros m Hm Hn. apply Hn. rewrite Hm. exact Hlive.
  - apply filter_eq_all. eapply Forall_impl; [exact Hown |].
    intros m Hm. rewrite Hm. exact Hdead.
Qed.

(** X13.  Extraction followed by a refresh: when every extracted record
    came back valid, a pass of [UpdateExternalMetrics] over the extracted
    records queries nothing and returns the empty list, provided the clock
    neither runs backwards nor advances by more than the maximum age
    between the extraction and the end of the pass. *)
Theorem X13_refresh_right_after_extraction_is_idle
    (clock : nat → Z)
    (queryDatadogExternal : nat → string → gmap string string → Z * option error)
    (p : Processor) (hpa : autoscalingv2.HorizontalPodAutoscaler) (w : World) :
  let r := ProcessHPAs clock queryDatadogExternal p hpa w in
  Forall (λ m, Valid m = true) r.1 →
  (∀ j k, (ticks w ≤ j)%nat → (j ≤ k)%nat → (k < ticks r.2 + length r.1)%nat →
          0 ≤ Unix clock k - Unix clock j ≤ maxAge p) →
  UpdateExternalMetrics clock queryDatadogExternal p r.1 r.2 =
    ([], mkWorld (ticks r.2 + length r.1) (queries r.2) (logs r.2)).
Proof.
  intros r Hvalid Hclock.
  destruct (ProcessHPAs_exact clock queryDatadogExternal p hpa w) as [Hrec Hticks].
  fold r in Hrec, Hticks.
  apply UpdateExternalMetrics_all_fresh. intros i m Hi.
  assert (m ∈ r.1) as Hin by (eapply list_elem_of_lookup_2; exact Hi).
  assert (i < length r.1)%nat as Hlt by (eapply lookup_lt_Some; exact Hi).
  rewrite Forall_forall in Hvalid. split; [apply Hvalid; exact Hin |].
  assert (Timestamp m = Unix clock (ticks w + i)) as Hts.
  { rewrite Hrec, list_lookup_imap in Hi.
    destruct (external_sources (autoscalingv2.Metrics hpa) !! i) as [src |];
      [| discriminate Hi].
    cbn in Hi. injection Hi as <-. reflexivity. }
  rewrite Hts. unfold Int64.sub.
  assert (length r.1 = length (external_sources (autoscalingv2.Metrics hpa))) as Hlen
    by (rewrite Hrec; apply length_imap).
  specialize (Hclock (ticks w + i)%nat (ticks r.2 + i)%nat
                ltac:(lia) ltac:(lia) ltac:(lia)).
  etransitivity; [apply Int64_wrap_le |]; lia.
Qed.

Lemma X13_witness :
  Forall (λ m, Valid m = true)
         (ProcessHPAs Examples.clock100 Examples.provider_up (NewProcessor 10)
            (Examples.policy "A" [Examples.external_requests]) Examples.w0).1 ∧
  UpdateExternalMetrics Examples.clock100 Examples.provider_up (NewProcessor 10)
    (ProcessHPAs Examples.clock100 Examples.provider_up (NewProcessor 10)
       (Examples.policy "A" [Examples.external_requests]) Examples.w0).1
    (ProcessHPAs Examples.clock100 Examples.provider_up (NewProcessor 10)
       (Examples.policy "A" [Examples.external_requests]) Examples.w0).2
  = ([],
     mkWorld
       (ticks (ProcessHPAs Examples.clock100 Examples.provider_up (NewProcessor 10)
                 (Examples.policy "A" [Examples.external_requests]) Examples.w0).2
        + length (ProcessHPAs Examples.clock100 Examples.provider_up (NewProcessor 10)
                    (Examples.policy "A" [Examples.external_requests]) Examples.w0).1)
       (queries (ProcessHPAs Examples.clock100 Examples.provider_up (NewProcessor 10)
                   (Examples.policy "A" [Examples.external_requests]) Examples.w0).2)
       (logs (ProcessHPAs Examples.clock100 Examples.provider_up (NewProcessor 10)
                (Examples.policy "A" [Examples.external_requests]) Examples.w0).2)).
Proof.
  assert (Forall (λ m, Valid m = true)
            (ProcessHPAs Examples.clock100 Examples.provider_up (NewProcessor 10)
               (Examples.policy "A" [Examples.external_requests]) Examples.w0).1) as Hv
    by (vm_compute; repeat constructor).
  split; [exact Hv |].
  apply (X13_refresh_right_after_extraction_is_idle Examples.clock100
           Examples.provider_up (NewProcessor 10)
           (Examples.policy "A" [Examples.external_requests]) Examples.w0 Hv).
  intros j k _ _ _. unfold Unix, Examples.clock100. rewrite Z.sub_diag.
  split; [lia | vm_compute; discriminate].
Defined.

(** ** Further properties of [ComputeDeleteExternalMetrics] *)

(** X14.  The two extremes of the diff: nothing is collected exactly when
    every stored record is owned by a live policy object, and everything is
    collected exactly when no stored record is; in particular an empty
    policy list condemns every record and an empty store yields nothing. *)
Theorem X14_gc_collects_nothing_or_everything
    (hpaList : list autoscalingv2.HorizontalPodAutoscaler)
    (emList : list ExternalMetricValue) (w : World) :
  ((ComputeDeleteExternalMetrics hpaList emList w).1 = [] ↔
     Forall (λ em, UID (HPA em) ∈ live_uids hpaList) emList) ∧
  ((ComputeDeleteExternalMetrics hpaList emList w).1 = emList ↔
     Forall (λ em, UID (HPA em) ∉ live_uids hpaList) emList) ∧
  (ComputeDeleteExternalMetrics [] emList w).1 = emList ∧
  (ComputeDeleteExternalMetrics hpaList [] w).1 = [].
Proof.
  rewrite !ComputeDeleteExternalMetrics_filter. cbn [fst].
  split; [| split; [| split]].
  - rewrite filter_eq_nil. apply Forall_proper; [| reflexivity].
    intros em. split; [| tauto].
    intros Hnn. destruct (decide (UID (HPA em) ∈ live_uids hpaList)); tauto.
  - apply filter_eq_all.
  - apply filter_eq_all. apply Forall_forall. intros em _. apply not_elem_of_nil.
  - reflexivity.
Qed.

(** X15.  The diff depends on the live policy objects only through the set
    of their uids: two policy lists with the same uids, in whatever order
    and multiplicity and with whatever names and specs, give the same
    deletion list. *)
Theorem X15_gc_depends_on_the_set_of_live_uids_only
    (hpaList1 hpaList2 : list autoscalingv2.HorizontalPodAutoscaler)
    (emList : list ExternalMetricValue) (w : World) :
  (∀ uid, uid ∈ live_uids hpaList1 ↔ uid ∈ live_uids hpaList2) →
  ComputeDeleteExternalMetrics hpaList1 emList w =
  ComputeDeleteExternalMetrics hpaList2 emList w.
Proof.
  intros Hsame. rewrite !ComputeDeleteExternalMetrics_filter. f_equal.
  apply list_filter_iff. intros em. rewrite Hsame. reflexivity.
Qed.

Lemma X15_witness :
  (∀ uid,
     uid ∈ live_uids [Examples.policy "A" []; Examples.policy "B" [];
                      Examples.policy "A" [Examples.external_requests]] ↔
     uid ∈ live_uids [Examples.policy "B" []; Examples.policy "A" []]) ∧
  ComputeDeleteExternalMetrics
    [Examples.policy "A" []; Examples.policy "B" [];
     Examples.policy "A" [Examples.external_requests]]
    [Examples.metric "A" 0 true; Examples.metric "C" 0 true] Examples.w0 =
  ComputeDeleteExternalMetrics
    [Examples.policy "B" []; Examples.policy "A" []]
    [Examples.metric "A" 0 true; Examples.metric "C" 0 true] Examples.w0.
Proof.
  assert (∀ uid,
            uid ∈ live_uids [Examples.policy "A" []; Examples.policy "B" [];
                             Examples.policy "A" [Examples.external_requests]] ↔
            uid ∈ live_uids [Examples.policy "B" []; Examples.policy "A" []]) as Hsame.
  { intros uid. unfold live_uids. cbn.
    rewrite !elem_of_cons, elem_of_nil. tauto. }
  split; [exact Hsame |].
  exact (X15_gc_depends_on_the_set_of_live_uids_only _ _
           [Examples.metric "A" 0 true; Examples.metric "C" 0 true] Examples.w0 Hsame).
Defined.

(** X16.  The diff composes: over a concatenated store it is the
    concatenation of the diffs of the parts, and against a concatenated
    policy list it is the diff against one part of the diff against the
    other, so a record is collected only if no part of the policy list
    owns it. *)
Theorem X16_gc_over_concatenations
    (hpaList1 hpaList2 : list autoscalingv2.HorizontalPodAutoscaler)
    (emList1 emList2 : list ExternalMetricValue) (w : World) :
  (ComputeDeleteExternalMetrics hpaList1 (emList1 ++ emList2) w).1 =
    (ComputeDeleteExternalMetrics hpaList1 emList1 w).1 ++
    (ComputeDeleteExternalMetrics hpaList1 emList2 w).1 ∧
  (ComputeDeleteExternalMetrics (hpaList1 ++ hpaList2) emList1 w).1 =
    (ComputeDeleteExternalMetrics hpaList1
       (ComputeDeleteExternalMetrics hpaList2 emList1 w).1 w).1.
Proof.
  rewrite !ComputeDeleteExternalMetrics_filter. cbn [fst]. split.
  - apply filter_app.
  - rewrite list_filter_filter. apply list_filter_iff. intros em.
    unfold live_uids. rewrite fmap_app, elem_of_app. tauto.
Qed.
